(** * Matchmaker: rating engine, result recorder and worker pacing

    A shallow embedding of [app/matchmaker.py].

    Numbers.  The Python code computes on binary64 floats.  In the modules
    [Rating] and [Recorder] every float is an exact real number ([R]):
    [10 ** x] is [Rpower 10 x], [/] is real division, comparisons are the
    decidable order of [R].  What depends on the control flow, on the
    grouping, on sorting and indexing, and on the assertions of the source is
    inside that model.  Rounding is outside it, and the code differs from the
    model in four ways:
    - a difference that is strictly positive in [R] can round to 0.0 (the
      expected score rounds to 1.0 once two ratings are about 6400 points
      apart);
    - the last bits of two deltas that are ordered in [R] can be ordered the
      other way;
    - [math.isclose] compares two values that are equal in [R] and computed
      in two different ways, and fails for ratings about 3050 points apart or
      more when the first of two players has not won;
    - [10 ** x] raises [OverflowError] for a rating above about 123000, and
      the division of line 109 raises [ZeroDivisionError] when both powers
      underflow to 0.0.
    The module [Binary64] has the pairwise formula and the inter-group deltas
    on binary64 numbers, for the inputs on which the power is known exactly.

    Exceptions.  A Python exception is a value [Raise e] of the [raises]
    type; a function that may raise returns [raises A]. *)

From Stdlib Require Import Reals Lra Lia List Bool Arith PeanoNat Psatz.
From Stdlib Require Import Permutation Sorted ZArith.
From Stdlib Require String.
From Stdlib Require Import PrimFloat.
From Stdlib Require Uint63.
Import ListNotations.
Local Open Scope R_scope.

(** ** Exceptions *)

Inductive exn : Type :=
| AssertionError
| ZeroDivisionError
| ValueError
| IndexError
| RequestException.

Inductive raises (A : Type) : Type :=
| Ok (a : A)
| Raise (e : exn).

Arguments Ok {A} a.
Arguments Raise {A} e.

Definition bind {A B : Type} (m : raises A) (f : A -> raises B) : raises B :=
  match m with
  | Ok a => f a
  | Raise e => Raise e
  end.

Notation "x <- m ;; f" := (bind m (fun x => f))
  (at level 61, m at next level, right associativity).

(** [assert b] *)
Definition assert (b : bool) : raises unit :=
  if b then Ok tt else Raise AssertionError.

(** [l[i]] for a non-negative index *)
Definition getitem {A : Type} (l : list A) (i : nat) : raises A :=
  match nth_error l i with
  | Some a => Ok a
  | None => Raise IndexError
  end.

(** ** Real-number helpers standing for the float operations of Python *)

Definition Rltb (x y : R) : bool := if Rlt_dec x y then true else false.
Definition Rleb (x y : R) : bool := if Rle_dec x y then true else false.
Definition Reqb (x y : R) : bool := if Req_dec_T x y then true else false.

(** [sum(l)]: starts from 0 and adds from the left. *)
Definition sum (l : list R) : R := fold_left Rplus l 0.

(** [sorted(l)] on numbers.  Equal numbers are indistinguishable, so the
    sorted list does not depend on the algorithm; insertion sort is used. *)
Fixpoint insert (x : R) (l : list R) : list R :=
  match l with
  | [] => [x]
  | y :: t => if Rle_dec x y then x :: l else y :: insert x t
  end.

Fixpoint sorted (l : list R) : list R :=
  match l with
  | [] => []
  | x :: t => insert x (sorted t)
  end.

(** [l.index(x)]: position of the first element equal to [x];
    [ValueError] when there is none. *)
Fixpoint index (x : R) (l : list R) : raises nat :=
  match l with
  | [] => Raise ValueError
  | y :: t =>
      if Req_dec_T y x then Ok 0%nat
      else n <- index x t ;; Ok (S n)
  end.

(** [min(l)] and [max(l)]; [ValueError] on the empty list. *)
Definition list_min (l : list R) : raises R :=
  match l with
  | [] => Raise ValueError
  | x :: t => Ok (fold_left Rmin t x)
  end.

Definition list_max (l : list R) : raises R :=
  match l with
  | [] => Raise ValueError
  | x :: t => Ok (fold_left Rmax t x)
  end.

(** [math.isclose(a, b, rel_tol=rel_tol, abs_tol=abs_tol)] on finite numbers *)
Definition isclose (a b rel_tol abs_tol : R) : bool :=
  let diff := Rabs (b - a) in
  Reqb a b
  || Rleb diff (Rabs (rel_tol * b))
  || Rleb diff (Rabs (rel_tol * a))
  || Rleb diff abs_tol.

(** ** Outcomes *)

(** Modelled from the spec: [cuwais.common.Outcome] is imported by the
    source and not part of it; the spec gives its three members. *)
Inductive Outcome : Type := Win | Loss | Draw.

Definition Outcome_eqb (a b : Outcome) : bool :=
  match a, b with
  | Win, Win | Loss, Loss | Draw, Draw => true
  | _, _ => false
  end.

(** A dictionary whose keys are the members of [Outcome] *)
Definition odict (A : Type) : Type := Outcome -> A.

Definition oset {A : Type} (d : odict A) (o : Outcome) (v : A) : odict A :=
  fun o' => if Outcome_eqb o o' then v else d o'.

(** ** The rating engine *)

Module Rating.
Section Engine.

(** [float(config_file.get("score_turbulence"))] *)
Variable k : R.

Definition _calculate_delta_scores_pair (a_score b_score winner_weight : R) : R :=
  let a_rating := Rpower 10 (a_score / 400) in
  let b_rating := Rpower 10 (b_score / 400) in
  let a_expected := a_rating / (a_rating + b_rating) in
  let delta := k * (winner_weight - a_expected) in
  delta.

(** The three dictionaries filled by the grouping loop *)
Record groups : Type := {
  counts : odict nat;
  totals : odict R;
  group_elos : odict (list R)
}.

Definition groups_init : groups :=
  {| counts := fun _ => 0%nat;
     totals := fun _ => 0;
     group_elos := fun _ => [] |}.

Definition group_step (g : groups) (p : Outcome * R) : groups :=
  let (outcome, elo) := p in
  {| counts := oset (counts g) outcome (counts g outcome + 1)%nat;
     totals := oset (totals g) outcome (totals g outcome + elo);
     group_elos := oset (group_elos g) outcome (group_elos g outcome ++ [elo]) |}.

Definition group_players (outcomes : list Outcome) (current_elos : list R) : groups :=
  fold_left group_step (combine outcomes current_elos) groups_init.

(** Inter-group deltas *)
Definition win_loss (g : groups) : R :=
  if (0 <? counts g Win)%nat && (0 <? counts g Loss)%nat
  then _calculate_delta_scores_pair (totals g Win) (totals g Loss) 1
  else 0.

Definition win_draw (g : groups) : R :=
  if (0 <? counts g Win)%nat && (0 <? counts g Draw)%nat
  then _calculate_delta_scores_pair (totals g Win) (totals g Draw) 1
  else 0.

Definition loss_draw (g : groups) : R :=
  if (0 <? counts g Loss)%nat && (0 <? counts g Draw)%nat
  then _calculate_delta_scores_pair (totals g Draw) (totals g Loss) 1
  else 0.

(** Intra-group deltas: which group, if any, is the only one *)
Definition single_team_outcome (g : groups) : option Outcome :=
  if (counts g Win =? counts g Loss)%nat && (counts g Loss =? 0)%nat then Some Draw
  else if (counts g Win =? counts g Draw)%nat && (counts g Draw =? 0)%nat then Some Loss
  else if (counts g Loss =? counts g Draw)%nat && (counts g Draw =? 0)%nat then Some Win
  else None.

Definition single_team_elos (g : groups) : list R :=
  match single_team_outcome g with
  | Some o => sorted (group_elos g o)
  | None => []
  end.

(** [delta /= counts[o]] *)
Definition div_count (delta : R) (n : nat) : raises R :=
  if (n =? 0)%nat then Raise ZeroDivisionError else Ok (delta / INR n).

(** Inter-group portion of one player's delta *)
Definition inter_group (g : groups) (outcome : Outcome) : raises R :=
  match outcome with
  | Win => div_count (win_loss g + win_draw g) (counts g Win)
  | Loss => div_count (- win_loss g - loss_draw g) (counts g Loss)
  | Draw => div_count (loss_draw g - win_draw g) (counts g Draw)
  end.

Definition is_single_team (g : groups) (outcome : Outcome) : bool :=
  match single_team_outcome g with
  | Some o => Outcome_eqb outcome o
  | None => false
  end.

(** Intra-group portion for single team result sets.  [position_in_team] is
    below the length of the team whenever [index] succeeds, so the
    subtraction of the source never goes below 0. *)
Definition intra_group (g : groups) (elo delta : R) : raises R :=
  position_in_team <- index elo (single_team_elos g) ;;
  let opponent_position := (length (single_team_elos g) - position_in_team - 1)%nat in
  opponent_elo <- getitem (single_team_elos g) opponent_position ;;
  if (opponent_position =? position_in_team)%nat then Ok delta
  else Ok (delta + _calculate_delta_scores_pair elo opponent_elo (1 / 2)).

(** Body of the player loop *)
Definition player_delta (g : groups) (p : Outcome * R) : raises R :=
  let (outcome, elo) := p in
  delta <- inter_group g outcome ;;
  if is_single_team g outcome then intra_group g elo delta else Ok delta.

Fixpoint player_deltas (g : groups) (players : list (Outcome * R)) : raises (list R) :=
  match players with
  | [] => Ok []
  | p :: rest =>
      delta <- player_delta g p ;;
      deltas <- player_deltas g rest ;;
      Ok (delta :: deltas)
  end.

(** The closing comparison with plain Elo for two player games *)
Definition two_player_check (outcomes : list Outcome) (current_elos deltas : list R)
  : raises unit :=
  match outcomes with
  | [o0; o1] =>
      _ <- (if Outcome_eqb o0 o1 && Outcome_eqb o1 Draw then
              lo <- list_min current_elos ;;
              hi <- list_max current_elos ;;
              let exp_delta := _calculate_delta_scores_pair lo hi (1 / 2) in
              top <- list_max deltas ;;
              assert (isclose top exp_delta (1 / 1000000000) 0)
            else Ok tt) ;;
      if negb (Outcome_eqb o0 o1) then
        let v := if Outcome_eqb o0 Win then 1 else 0 in
        e0 <- getitem current_elos 0 ;;
        e1 <- getitem current_elos 1 ;;
        let exp_delta := _calculate_delta_scores_pair e0 e1 v in
        d0 <- getitem deltas 0 ;;
        assert (isclose d0 exp_delta (1 / 1000000000) 0)
      else Ok tt
  | _ => Ok tt
  end.

Definition _calculate_delta_scores (outcomes : list Outcome) (current_elos : list R)
  : raises (list R) :=
  let g := group_players outcomes current_elos in
  deltas <- player_deltas g (combine outcomes current_elos) ;;
  _ <- assert (length deltas =? length outcomes)%nat ;;
  _ <- assert (Rltb (- (1 / 1000000)) (sum deltas) && Rltb (sum deltas) (1 / 1000000)) ;;
  _ <- two_player_check outcomes current_elos deltas ;;
  Ok deltas.

End Engine.
End Rating.

(** ** The pairwise formula and the inter-group deltas on binary64 numbers *)

Module Binary64.

(** [10 ** x].  Python takes the power from the C library, which is not part
    of the source.  For [x] one of 0, 1, ..., 22 the power of ten is a
    binary64 number and is the value returned; [pow10] has a value for these
    [x] and for no other. *)
Fixpoint pow10_from (n : nat) (i p x : float) : option float :=
  match n with
  | O => None
  | S m => if PrimFloat.eqb x i then Some p
           else pow10_from m (PrimFloat.add i 1) (PrimFloat.mul 10 p) x
  end.

Definition pow10 (x : float) : option float := pow10_from 23 0 1 x.

Section Engine.

(** [float(config_file.get("score_turbulence"))] *)
Variable k : float.

(** [None] where a power has no value in [pow10] *)
Definition _calculate_delta_scores_pair (a_score b_score winner_weight : float)
  : option float :=
  match pow10 (a_score / 400)%float, pow10 (b_score / 400)%float with
  | Some a_rating, Some b_rating =>
      let a_expected := (a_rating / (a_rating + b_rating))%float in
      let delta := (k * (winner_weight - a_expected))%float in
      Some delta
  | _, _ => None
  end.

(** The counts and the summed ratings of the grouping loop *)
Record groups : Type := {
  counts : odict nat;
  totals : odict float
}.

Definition groups_init : groups :=
  {| counts := fun _ => 0%nat;
     totals := fun _ => 0%float |}.

Definition group_step (g : groups) (p : Outcome * float) : groups :=
  let (outcome, elo) := p in
  {| counts := oset (counts g) outcome (counts g outcome + 1)%nat;
     totals := oset (totals g) outcome (totals g outcome + elo)%float |}.

Definition group_players (outcomes : list Outcome) (current_elos : list float) : groups :=
  fold_left group_step (combine outcomes current_elos) groups_init.

(** Inter-group deltas.  A pairing that is not played is the integer 0 of
    Python; it is the float 0 here, which differs from it in the sign of a
    zero result at most. *)
Definition win_loss (g : groups) : option float :=
  if (0 <? counts g Win)%nat && (0 <? counts g Loss)%nat
  then _calculate_delta_scores_pair (totals g Win) (totals g Loss) 1
  else Some 0%float.

Definition win_draw (g : groups) : option float :=
  if (0 <? counts g Win)%nat && (0 <? counts g Draw)%nat
  then _calculate_delta_scores_pair (totals g Win) (totals g Draw) 1
  else Some 0%float.

Definition loss_draw (g : groups) : option float :=
  if (0 <? counts g Loss)%nat && (0 <? counts g Draw)%nat
  then _calculate_delta_scores_pair (totals g Draw) (totals g Loss) 1
  else Some 0%float.

(** [delta /= counts[o]]: the count is converted to a float *)
Definition div_count (delta : float) (n : nat) : raises float :=
  if (n =? 0)%nat then Raise ZeroDivisionError
  else Ok (delta / PrimFloat.of_uint63 (Uint63.of_Z (Z.of_nat n)))%float.

(** Inter-group portion of one player's delta *)
Definition inter_group (g : groups) (outcome : Outcome) : option (raises float) :=
  match win_loss g, win_draw g, loss_draw g with
  | Some win_loss, Some win_draw, Some loss_draw =>
      Some match outcome with
           | Win => div_count (win_loss + win_draw)%float (counts g Win)
           | Loss => div_count (- win_loss - loss_draw)%float (counts g Loss)
           | Draw => div_count (loss_draw - win_draw)%float (counts g Draw)
           end
  | _, _, _ => None
  end.

End Engine.
End Binary64.

(** ** The persistent store *)

(** Modelled from the spec: the entities of [cuwais.database] are imported by
    the source and not part of it.  The records below have the columns the
    source reads and writes.  [id] is the primary key of a submission; a
    result row refers to its submission through [submission_id] and to its
    match through [match_id], the position of the match in the table. *)
Module Submission.
Record t : Type := {
  id : nat;
  user_id : nat;
  files_hash : String.string;
  active : bool;
  submission_date : nat
}.
End Submission.

Module Result.
Record t : Type := {
  match_id : nat;
  submission_id : nat;
  outcome : Outcome;
  healthy : bool;
  points_delta : R;
  player_id : String.string;
  prints : String.string;
  result_code : nat
}.
End Result.

(** [recording] is the JSON document of which the column holds the text:
    line 277 stores [json.dumps(result["recording"])]. *)
Module Match.
Record t : Type := {
  match_date : nat;
  recording : String.string
}.
End Match.

Record Database : Type := {
  submissions : list Submission.t;
  results : list Result.t;
  matches : list Match.t
}.

(** Modelled from the spec: [cuwais.gamemodes.Gamemode] is not part of the
    source; the source reads its [name] and its [player_count]. *)
Module Gamemode.
Record t : Type := {
  name : String.string;
  player_count : nat
}.
End Gamemode.

(** One element of [result["submission_results"]], and the whole payload the
    execution service answers with.  A value of these types is a payload that
    decodes: every element has the five keys the source reads, and its
    outcome is a value of [Outcome], so that [Outcome(r["outcome"])] returns.
    On a payload that does not decode, lines 273 to 283 raise [KeyError] or
    [ValueError]; such a payload is no value of these types.  [recording] is
    the JSON document [result["recording"]]; the source does nothing with it
    but serialise it. *)
Module SubmissionResult.
Record t : Type := {
  outcome : Outcome;
  healthy : bool;
  player_id : String.string;
  printed : String.string;
  result_code : nat
}.
End SubmissionResult.

Record Payload : Type := {
  recording : String.string;
  submission_results : list SubmissionResult.t
}.

(** [i in ids], the SQL [IN] of the queries *)
Definition in_ (i : nat) (ids : list nat) : bool := existsb (Nat.eqb i) ids.

(** The results joined to a submission: [Submission.results] *)
Definition results_of (db : Database) (s : Submission.t) : list Result.t :=
  filter (fun r => Result.submission_id r =? Submission.id s)%nat (results db).

(** [GROUP BY key] with [SUM(value)]: one row per key that occurs *)
Definition group_by_sum (rows : list (nat * R)) : list (nat * R) :=
  map (fun key => (key, sum (map snd (filter (fun row => fst row =? key)%nat rows))))
      (nodup Nat.eq_dec (map fst rows)).

(** A Python [dict] built from (key, value) rows: a later row replaces an
    earlier one with the same key. *)
Definition dict_of (rows : list (nat * R)) : nat -> option R :=
  fold_left (fun d row key => if (key =? fst row)%nat then Some (snd row) else d key)
            rows (fun _ => None).

Module Recorder.
Section Recorder.

(** [score_turbulence] and [initial_score] of the configuration *)
Variable k : R.
Variable init : R.

(** The subquery [t1] of [_get_elos]: submissions restricted to
    [submission_ids], joined to their results, grouped by owner. *)
Definition elo_subquery (db : Database) (submission_ids : list nat) : list (nat * R) :=
  group_by_sum
    (flat_map
       (fun s => map (fun r => (Submission.user_id s, Result.points_delta r))
                     (results_of db s))
       (filter (fun s => in_ (Submission.id s) submission_ids) (submissions db))).

(** The rows [(Submission.id, t1.elo)] of the outer query *)
Definition elo_rows (db : Database) (submission_ids : list nat) : list (nat * R) :=
  flat_map
    (fun s => map (fun row => (Submission.id s, snd row))
                  (filter (fun row => Submission.user_id s =? fst row)%nat
                          (elo_subquery db submission_ids)))
    (filter (fun s => in_ (Submission.id s) submission_ids) (submissions db)).

Definition _get_elos (db : Database) (submission_ids : list nat) : list R :=
  let elo_lookup := dict_of (elo_rows db submission_ids) in
  map (fun i => match elo_lookup i with Some elo => elo | None => 0 end + init)
      submission_ids.

(** The rows written for one match: [zip(submission_ids, submission_results, deltas)] *)
Definition new_results (m : nat) (submission_ids : list nat)
    (submission_results : list SubmissionResult.t) (deltas : list R) : list Result.t :=
  map (fun '(submission_id, submission_result, delta) =>
         {| Result.match_id := m;
            Result.submission_id := submission_id;
            Result.outcome := SubmissionResult.outcome submission_result;
            Result.healthy := SubmissionResult.healthy submission_result;
            Result.points_delta := delta;
            Result.player_id := SubmissionResult.player_id submission_result;
            Result.prints := SubmissionResult.printed submission_result;
            Result.result_code := SubmissionResult.result_code submission_result |})
      (combine (combine submission_ids submission_results) deltas).

(** [_save_result]; [now] is the clock read by [datetime.now].  The match and
    its results are added in one session and committed together.  The match
    keeps the document of the payload, which the source stores as the text
    [json.dumps] gives for it. *)
Definition _save_result (now : nat) (db : Database) (subs : list Submission.t)
    (result : Payload) (update_scores : bool) : raises Database :=
  let submission_ids := map Submission.id subs in
  let submission_results := submission_results result in
  if negb (length submission_ids =? length submission_results)%nat then Raise ValueError
  else
    deltas <- (if update_scores then
                 let elos := _get_elos db submission_ids in
                 let outcomes := map SubmissionResult.outcome submission_results in
                 Rating._calculate_delta_scores k outcomes elos
               else Ok (repeat 0 (length submission_ids))) ;;
    let m := {| Match.match_date := now; Match.recording := recording result |} in
    Ok {| submissions := submissions db;
          results := results db
                     ++ new_results (length (matches db)) submission_ids submission_results deltas;
          matches := matches db ++ [m] |}.

(** *** Candidate selection *)

Definition healthies (db : Database) (s : Submission.t) : nat :=
  length (filter Result.healthy (results_of db s)).

Definition total (db : Database) (s : Submission.t) : nat :=
  length (results_of db s).

(** [most_recent_subq]: per owner, the latest submission date among the
    active submissions that have a healthy result *)
Definition maxdate (db : Database) (user : nat) : option nat :=
  match filter (fun s => (Submission.user_id s =? user)%nat
                         && Submission.active s
                         && (0 <? healthies db s)%nat) (submissions db) with
  | [] => None
  | s :: rest => Some (fold_left Nat.max (map Submission.submission_date rest)
                                 (Submission.submission_date s))
  end.

Definition _get_all_latest_healthy_submissions (db : Database) : list (Submission.t * R) :=
  map (fun s => (s, INR (healthies db s) / INR (total db s)))
      (filter (fun s => (0 <? healthies db s)%nat
                        && match maxdate db (Submission.user_id s) with
                           | Some d => (Submission.submission_date s =? d)%nat
                           | None => false
                           end)
              (submissions db)).

(** All submissions with no results *)
Definition _get_all_untested_submissions (db : Database) : list Submission.t :=
  filter (fun s => (length (results_of db s) =? 0)%nat) (submissions db).

(** *** Running matches *)

(** The execution service: the request carries the options, the name of the
    game mode and the hashes; a response other than 200 is
    [Raise RequestException]. *)
Variable runner : String.string -> String.string -> list String.string -> raises Payload.

Definition _run_match (gamemode : Gamemode.t) (options : String.string)
    (subs : list Submission.t) : raises Payload :=
  let submission_hashes := map Submission.files_hash subs in
  runner options (Gamemode.name gamemode) submission_hashes.

Fixpoint getitems {A : Type} (l : list A) (positions : list nat) : raises (list A) :=
  match positions with
  | [] => Ok []
  | i :: rest => a <- getitem l i ;; t <- getitems l rest ;; Ok (a :: t)
  end.

(** [_run_typical_match]; [i_submissions] is the draw of
    [numpy.random.choice], positions in [newest]; the health ratios only
    weigh that draw.  Returns the flag of the source and the store after the
    call. *)
Definition _run_typical_match (now : nat) (i_submissions : list nat)
    (gamemode : Gamemode.t) (options : String.string) (db : Database)
  : raises (bool * Database) :=
  let newest := _get_all_latest_healthy_submissions db in
  if (0 <? Gamemode.player_count gamemode)%nat
     && (length newest <? Gamemode.player_count gamemode)%nat
  then Ok (false, db)
  else
    subs <- (if (0 <? Gamemode.player_count gamemode)%nat
             then getitems (map fst newest) i_submissions
             else Ok []) ;;
    result <- _run_match gamemode options subs ;;
    let update_scores := existsb SubmissionResult.healthy (submission_results result) in
    db' <- _save_result now db subs result update_scores ;;
    Ok (true, db').

(** [_run_test_match]; [choice] is the position in [newest] that
    [random.choice] draws. *)
Definition _run_test_match (now : nat) (choice : nat)
    (gamemode : Gamemode.t) (options : String.string) (db : Database)
  : raises (bool * Database) :=
  let newest := _get_all_untested_submissions db in
  if (0 <? Gamemode.player_count gamemode)%nat && (length newest =? 0)%nat
  then Ok (false, db)
  else
    subs <- (if (0 <? Gamemode.player_count gamemode)%nat
             then s <- getitem newest choice ;;
                  Ok (repeat s (Gamemode.player_count gamemode))
             else Ok []) ;;
    result <- _run_match gamemode options subs ;;
    db' <- _save_result now db subs result false ;;
    Ok (true, db').

(** *** The worker *)

(** What one iteration reads from outside: the clock, the two random
    selections, the CPU time it took, and the two random numbers of the
    pacing ([random.randint(1, max(2, seconds_per_run))] and
    [random.random()]). *)
Record Draws : Type := {
  now : nat;
  choice : nat;
  i_submissions : list nat;
  diff : R;
  randint : Z;
  random : R
}.

(** [Matchmaker._run_one]: every exception is caught and gives [False];
    nothing was committed then. *)
Definition _run_one (d : Draws) (gamemode : Gamemode.t) (options : String.string)
    (db : Database) : bool * Database :=
  match _run_test_match (now d) (choice d) gamemode options db with
  | Ok (true, db') => (true, db')
  | Ok (false, _) =>
      match _run_typical_match (now d) (i_submissions d) gamemode options db with
      | Ok r => r
      | Raise _ => (false, db)
      end
  | Raise _ => (false, db)
  end.

(** The number handed to [time.sleep] at the end of an iteration.  The
    statement under [if not success] computes a sum and drops it. *)
Definition sleep_time (seconds_per_run : Z) (success : bool) (d : Draws) : R :=
  let wait_time := IZR seconds_per_run - diff d in
  let _ := if negb success then wait_time + IZR (randint d) else wait_time in
  let wait_time := wait_time + 5 / 100 * IZR seconds_per_run * (random d - 5 / 10) in
  Rmax 0 wait_time.

(** One turn of the loop of [Matchmaker.run]: the time slept and the store
    afterwards. *)
Definition run_iteration (seconds_per_run : Z) (d : Draws) (gamemode : Gamemode.t)
    (options : String.string) (db : Database) : R * Database :=
  let (success, db') := _run_one d gamemode options db in
  (sleep_time seconds_per_run success d, db').

(** [Matchmaker.run].  The loop of the source never ends; [run] gives the
    turns it takes for the draws it is handed: the times slept, in order, and
    the store after the last turn. *)
Fixpoint run_loop (seconds_per_run : Z) (ds : list Draws) (gamemode : Gamemode.t)
    (options : String.string) (db : Database) : list R * Database :=
  match ds with
  | [] => ([], db)
  | d :: rest =>
      let (slept, db') := run_iteration seconds_per_run d gamemode options db in
      let (later, db'') := run_loop seconds_per_run rest gamemode options db' in
      (slept :: later, db'')
  end.

Definition run (seconds_per_run : Z) (ds : list Draws) (gamemode : Gamemode.t)
    (options : String.string) (db : Database) : list R * Database :=
  if (Gamemode.player_count gamemode <? 1)%nat then ([], db)
  else run_loop seconds_per_run ds gamemode options db.

End Recorder.
End Recorder.

(** ** Notions used to state the properties *)

(** The ratings of the players with outcome [o], in the order of the match *)
Definition members (o : Outcome) (players : list (Outcome * R)) : list R :=
  map snd (filter (fun p => Outcome_eqb (fst p) o) players).

(** The numerator of the inter-group portion of a group *)
Definition inter_total (k : R) (g : Rating.groups) (o : Outcome) : R :=
  match o with
  | Win => Rating.win_loss k g + Rating.win_draw k g
  | Loss => - Rating.win_loss k g - Rating.loss_draw k g
  | Draw => Rating.loss_draw k g - Rating.win_draw k g
  end.

(** The rating at the mirror position of [elo] in [team] *)
Definition mirror (team : list R) (elo : R) : R :=
  match index elo team with
  | Ok p => nth (length team - p - 1) team elo
  | Raise _ => elo
  end.

(** The submission with primary key [i] *)
Definition owner (db : Database) (i : nat) : option Submission.t :=
  find (fun s => Submission.id s =? i)%nat (submissions db).

(** [r] belongs to a submission of [user] *)
Definition owned_by (db : Database) (user : nat) (r : Result.t) : bool :=
  existsb (fun s => (Result.submission_id r =? Submission.id s)%nat
                    && (Submission.user_id s =? user)%nat)
          (submissions db).

(** Rating of a participant in the words of the spec: the initial value plus
    the sum of the deltas of all the results of all its submissions. *)
Definition rating (init : R) (db : Database) (user : nat) : R :=
  init + sum (map Result.points_delta (filter (owned_by db user) (results db))).

(** [r] belongs to a submission of [user] that is among [submission_ids] *)
Definition owned_in_match (db : Database) (submission_ids : list nat) (user : nat)
    (r : Result.t) : bool :=
  existsb (fun s => (Result.submission_id r =? Submission.id s)%nat
                    && (Submission.user_id s =? user)%nat
                    && in_ (Submission.id s) submission_ids)
          (submissions db).

Definition match_points (db : Database) (submission_ids : list nat) (user : nat) : R :=
  sum (map Result.points_delta (filter (owned_in_match db submission_ids user) (results db))).

(** The joined rows that the subquery of [_get_elos] groups, for the
    submissions [L] and the results [rs] *)
Definition match_rows (rs : list Result.t) (ids : list nat) (L : list Submission.t)
  : list (nat * R) :=
  flat_map
    (fun s => map (fun r => (Submission.user_id s, Result.points_delta r))
                  (filter (fun r => Result.submission_id r =? Submission.id s)%nat rs))
    (filter (fun s => in_ (Submission.id s) ids) L).

(** Every stored result refers to a stored match and to a stored submission. *)
Definition consistent (db : Database) : Prop :=
  forall r, In r (results db) ->
    (Result.match_id r < length (matches db))%nat
    /\ exists s, In s (submissions db) /\ Submission.id s = Result.submission_id r.

(** ** A store to evaluate on *)

Definition sub (i user : nat) (a : bool) : Submission.t :=
  {| Submission.id := i; Submission.user_id := user;
     Submission.files_hash := String.EmptyString;
     Submission.active := a; Submission.submission_date := i |}.

Definition res (m s : nat) (o : Outcome) (h : bool) (delta : R) : Result.t :=
  {| Result.match_id := m; Result.submission_id := s; Result.outcome := o;
     Result.healthy := h; Result.points_delta := delta;
     Result.player_id := String.EmptyString; Result.prints := String.EmptyString;
     Result.result_code := 0%nat |}.

(** Participant 7 submitted twice (1, then 2) and participant 8 once (3).
    Match 0 was played by submissions 1 and 3 and moved 25 points; match 1
    was the self-test of submission 2. *)
Definition db0 : Database :=
  {| submissions := [sub 1 7 false; sub 2 7 true; sub 3 8 true];
     results := [res 0 1 Win true 25; res 0 3 Loss true (-25);
                 res 1 2 Draw true 0; res 1 2 Draw true 0];
     matches := [ {| Match.match_date := 10%nat; Match.recording := String.EmptyString |};
                  {| Match.match_date := 20%nat; Match.recording := String.EmptyString |} ] |}.

(** The same store with a fourth submission that has not played yet *)
Definition db1 : Database :=
  {| submissions := submissions db0 ++ [sub 4 9 true];
     results := results db0;
     matches := matches db0 |}.

(** The result of a player that crashed with outcome [o] *)
Definition crash (o : Outcome) : SubmissionResult.t :=
  {| SubmissionResult.outcome := o; SubmissionResult.healthy := false;
     SubmissionResult.player_id := String.EmptyString;
     SubmissionResult.printed := String.EmptyString;
     SubmissionResult.result_code := 1%nat |}.

(** An execution service where the first player draws, every other player
    loses, and nobody is healthy *)
Definition crashing_runner (options gamemode : String.string) (hashes : list String.string)
  : raises Payload :=
  Ok {| recording := String.EmptyString;
        submission_results :=
          match hashes with
          | [] => []
          | _ :: rest => crash Draw :: map (fun _ => crash Loss) rest
          end |}.

(** The result of a healthy player with outcome [o] *)
Definition played (o : Outcome) : SubmissionResult.t :=
  {| SubmissionResult.outcome := o; SubmissionResult.healthy := true;
     SubmissionResult.player_id := String.EmptyString;
     SubmissionResult.printed := String.EmptyString;
     SubmissionResult.result_code := 0%nat |}.

(** An execution service where the first player wins, every other player
    loses, and everybody is healthy *)
Definition winning_runner (options gamemode : String.string) (hashes : list String.string)
  : raises Payload :=
  Ok {| recording := String.EmptyString;
        submission_results :=
          match hashes with
          | [] => []
          | _ :: rest => played Win :: map (fun _ => played Loss) rest
          end |}.

Definition two_players : Gamemode.t :=
  {| Gamemode.name := String.EmptyString; Gamemode.player_count := 2 |}.

(** The draws of an iteration that took one second of CPU time, drew a
    penalty of 5 seconds and no jitter *)
Definition draws0 : Recorder.Draws :=
  {| Recorder.now := 30%nat; Recorder.choice := 0%nat; Recorder.i_submissions := [0%nat; 1%nat];
     Recorder.diff := 1; Recorder.randint := 5%Z; Recorder.random := 1 / 2 |}.

(** * Properties *)

(** ** Exceptions, sorting and searching *)

Lemma bind_Ok {A B : Type} (m : raises A) (f : A -> raises B) (b : B) :
  bind m f = Ok b -> exists a, m = Ok a /\ f a = Ok b.
Proof. destruct m as [a|e]; simpl; [eauto | discriminate]. Qed.

Lemma getitem_Ok {A : Type} (l : list A) (i : nat) (a : A) :
  getitem l i = Ok a -> nth_error l i = Some a.
Proof. unfold getitem. destruct (nth_error l i); congruence. Qed.

Lemma insert_In (x z : R) (l : list R) : In z (insert x l) -> z = x \/ In z l.
Proof.
  induction l as [|y t IH]; simpl.
  - intros [<-|[]]; auto.
  - destruct (Rle_dec x y); simpl.
    + intros [<-|H]; auto.
    + intros [<-|H]; auto. destruct (IH H); auto.
Qed.

Lemma insert_sorted (x : R) (l : list R) :
  StronglySorted Rle l -> StronglySorted Rle (insert x l).
Proof.
  induction 1 as [|y t Hs IH Hy]; simpl.
  - repeat constructor.
  - destruct (Rle_dec x y) as [Hxy|Hxy].
    + constructor; [constructor; assumption|].
      constructor; [assumption|].
      rewrite Forall_forall in *. intros z Hz. specialize (Hy z Hz). lra.
    + constructor; [assumption|].
      rewrite Forall_forall in *. intros z Hz.
      destruct (insert_In _ _ _ Hz) as [->|Hz']; [lra | auto].
Qed.

Lemma sorted_StronglySorted (l : list R) : StronglySorted Rle (sorted l).
Proof.
  induction l as [|x t IH]; simpl; [constructor | apply insert_sorted, IH].
Qed.

Lemma StronglySorted_nth (l : list R) :
  StronglySorted Rle l ->
  forall i j a b, (i <= j)%nat ->
    nth_error l i = Some a -> nth_error l j = Some b -> a <= b.
Proof.
  induction 1 as [|y t Hs IH Hy]; intros i j a b Hij Hi Hj.
  - destruct i; discriminate.
  - destruct i as [|i], j as [|j]; simpl in *.
    + injection Hi as <-. injection Hj as <-. lra.
    + injection Hi as <-. rewrite Forall_forall in Hy.
      apply Hy. eapply nth_error_In; eassumption.
    + lia.
    + eapply IH; [|eassumption|eassumption]. lia.
Qed.

Lemma insert_perm (x : R) (l : list R) : Permutation (x :: l) (insert x l).
Proof.
  induction l as [|y t IH]; simpl; [reflexivity|].
  destruct (Rle_dec x y); [reflexivity|].
  rewrite perm_swap. apply perm_skip. exact IH.
Qed.

Lemma sorted_perm (l : list R) : Permutation l (sorted l).
Proof.
  induction l as [|x t IH]; simpl; [reflexivity|].
  rewrite <- insert_perm. apply perm_skip. exact IH.
Qed.

Lemma index_nth (x : R) (l : list R) (p : nat) :
  index x l = Ok p -> nth_error l p = Some x.
Proof.
  revert p. induction l as [|y t IH]; simpl; intros p H; [discriminate|].
  destruct (Req_dec_T y x) as [->|Hne].
  - injection H as <-. reflexivity.
  - destruct (bind_Ok _ _ _ H) as (n & Hn & Hp). injection Hp as <-.
    simpl. auto.
Qed.

Lemma index_lt (x : R) (l : list R) (p : nat) :
  index x l = Ok p -> (p < length l)%nat.
Proof.
  intros H. apply nth_error_Some. rewrite (index_nth _ _ _ H). discriminate.
Qed.

Lemma index_In (x : R) (l : list R) : In x l -> exists p, index x l = Ok p.
Proof.
  induction l as [|y t IH]; [contradiction|]. intros Hin. simpl.
  destruct (Req_dec_T y x) as [E|E]; [eauto|].
  destruct Hin as [Hy|Hin]; [contradiction|].
  destruct (IH Hin) as (p & ->). simpl. eauto.
Qed.

Lemma index_NoDup (l : list R) (p : nat) (x : R) :
  NoDup l -> nth_error l p = Some x -> index x l = Ok p.
Proof.
  intros Hnd Hp.
  destruct (index_In x l (nth_error_In _ _ Hp)) as (q & Hq).
  rewrite Hq. f_equal.
  apply (proj1 (NoDup_nth_error l) Hnd).
  - eapply index_lt; eassumption.
  - rewrite (index_nth _ _ _ Hq). congruence.
Qed.

(** ** Sums *)

Lemma fold_left_Rplus (l : list R) (a : R) : fold_left Rplus l a = a + sum l.
Proof.
  unfold sum. revert a. induction l as [|x t IH]; intros a; simpl.
  - lra.
  - rewrite (IH (a + x)), (IH (0 + x)). lra.
Qed.

Lemma sum_cons (x : R) (l : list R) : sum (x :: l) = x + sum l.
Proof. unfold sum at 1. simpl. rewrite fold_left_Rplus. lra. Qed.

Lemma sum_app (l1 l2 : list R) : sum (l1 ++ l2) = sum l1 + sum l2.
Proof.
  induction l1 as [|x t IH]; simpl.
  - unfold sum at 2. simpl. lra.
  - rewrite !sum_cons, IH. lra.
Qed.

Lemma sum_nil : sum [] = 0.
Proof. reflexivity. Qed.

Lemma sum_zeros (l : list R) : Forall (fun x => x = 0) l -> sum l = 0.
Proof.
  induction 1 as [|x t Hx _ IH]; [reflexivity|].
  rewrite sum_cons, IH, Hx. lra.
Qed.

Lemma sum_perm (l l' : list R) : Permutation l l' -> sum l = sum l'.
Proof.
  induction 1 as [| x l l' _ IH | x y l | l l' l'' _ IH1 _ IH2].
  - reflexivity.
  - rewrite !sum_cons, IH. reflexivity.
  - rewrite !sum_cons. lra.
  - congruence.
Qed.

Lemma sum_rev (l : list R) : sum (rev l) = sum l.
Proof. symmetry. apply sum_perm, Permutation_rev. Qed.

Lemma sum_map_opp {A : Type} (f : A -> R) (l : list A) :
  sum (map (fun a => - f a) l) = - sum (map f l).
Proof.
  induction l as [|a t IH]; cbn [map].
  - rewrite sum_nil. lra.
  - rewrite !sum_cons, IH. lra.
Qed.

Lemma sum_filter_split {A : Type} (f : A -> R) (p q : A -> bool) (l : list A) :
  (forall a, In a l -> p a = true -> q a = false) ->
  sum (map f (filter (fun a => p a || q a) l))
  = sum (map f (filter p l)) + sum (map f (filter q l)).
Proof.
  induction l as [|a t IH]; intros H; simpl.
  - rewrite sum_nil. lra.
  - assert (IH' := IH (fun b Hb => H b (or_intror Hb))).
    destruct (p a) eqn:Ep; simpl.
    + rewrite (H a (or_introl eq_refl) Ep). simpl. rewrite !sum_cons, IH'. lra.
    + destruct (q a); simpl; rewrite ?sum_cons, IH'; lra.
Qed.

(** ** The base pairwise formula *)

Lemma Rpower10_pos (x : R) : 0 < Rpower 10 x.
Proof. unfold Rpower. apply exp_pos. Qed.

Lemma Rpower10_step (a : R) : Rpower 10 ((a + 400) / 400) = 10 * Rpower 10 (a / 400).
Proof.
  replace ((a + 400) / 400) with (1 + a / 400) by field.
  rewrite Rpower_plus, Rpower_1 by lra. reflexivity.
Qed.

Lemma Rpower10_le (x y : R) : x <= y -> Rpower 10 x <= Rpower 10 y.
Proof.
  intros [Hlt | ->]; [left | right; reflexivity].
  apply Rpower_lt; lra.
Qed.

(** The expected score lies strictly between 0 and 1. *)
Lemma expected_bounds (a b : R) :
  0 < Rpower 10 (a / 400) / (Rpower 10 (a / 400) + Rpower 10 (b / 400)) < 1.
Proof.
  pose proof (Rpower10_pos (a / 400)) as Ha.
  pose proof (Rpower10_pos (b / 400)) as Hb.
  split.
  - apply Rdiv_lt_0_compat; lra.
  - apply Rmult_lt_reg_r with (Rpower 10 (a / 400) + Rpower 10 (b / 400)); [lra|].
    unfold Rdiv. rewrite Rmult_assoc, Rinv_l by lra. lra.
Qed.

(** What one side wins the other loses. *)
Lemma pair_opposite (k a b w : R) :
  Rating._calculate_delta_scores_pair k b a (1 - w)
  = - Rating._calculate_delta_scores_pair k a b w.
Proof.
  unfold Rating._calculate_delta_scores_pair.
  pose proof (Rpower10_pos (a / 400)) as Ha.
  pose proof (Rpower10_pos (b / 400)) as Hb.
  field. lra.
Qed.

Lemma pair_same (k a w : R) :
  Rating._calculate_delta_scores_pair k a a w = k * (w - 1 / 2).
Proof.
  unfold Rating._calculate_delta_scores_pair.
  pose proof (Rpower10_pos (a / 400)) as Ha.
  field. lra.
Qed.

(** Against an opponent rated 400 points higher the expected score is 1/11. *)
Lemma pair_up_400 (k a w : R) :
  Rating._calculate_delta_scores_pair k a (a + 400) w = k * (w - 1 / 11).
Proof.
  unfold Rating._calculate_delta_scores_pair.
  rewrite Rpower10_step.
  pose proof (Rpower10_pos (a / 400)) as Ha.
  field. lra.
Qed.

Lemma pair_down_400 (k a w : R) :
  Rating._calculate_delta_scores_pair k (a + 400) a w = k * (w - 10 / 11).
Proof.
  unfold Rating._calculate_delta_scores_pair.
  rewrite Rpower10_step.
  pose proof (Rpower10_pos (a / 400)) as Ha.
  field. lra.
Qed.

(** The draw formula falls when the own rating rises and rises when the
    opponent's rating rises. *)
Lemma pair_monotone (k a a' b b' w : R) :
  0 <= k -> a <= a' -> b' <= b ->
  Rating._calculate_delta_scores_pair k a' b' w
  <= Rating._calculate_delta_scores_pair k a b w.
Proof.
  intros Hk Ha Hb. unfold Rating._calculate_delta_scores_pair.
  apply Rmult_le_compat_l; [assumption|].
  apply Rplus_le_compat_l, Ropp_le_contravar.
  assert (HA : Rpower 10 (a / 400) <= Rpower 10 (a' / 400)) by (apply Rpower10_le; lra).
  assert (HB : Rpower 10 (b' / 400) <= Rpower 10 (b / 400)) by (apply Rpower10_le; lra).
  pose proof (Rpower10_pos (a / 400)) as Pa.
  pose proof (Rpower10_pos (b' / 400)) as Pb.
  set (A := Rpower 10 (a / 400)) in *. set (A' := Rpower 10 (a' / 400)) in *.
  set (B := Rpower 10 (b / 400)) in *. set (B' := Rpower 10 (b' / 400)) in *.
  apply Rmult_le_reg_r with ((A + B) * (A' + B')).
  - apply Rmult_lt_0_compat; lra.
  - replace (A / (A + B) * ((A + B) * (A' + B'))) with (A * (A' + B')) by (field; lra).
    replace (A' / (A' + B') * ((A + B) * (A' + B'))) with (A' * (A + B)) by (field; lra).
    nra.
Qed.

Lemma draw_sign (k a b : R) :
  0 <= k -> a <= b -> 0 <= Rating._calculate_delta_scores_pair k a b (1 / 2).
Proof.
  intros Hk Hab.
  pose proof (pair_monotone k a a b a (1 / 2) Hk (Rle_refl a) Hab) as H.
  rewrite pair_same in H. lra.
Qed.

(** ** The grouping loop *)

Lemma group_fold (players : list (Outcome * R)) :
  forall (g : Rating.groups) (o : Outcome),
    let g' := fold_left Rating.group_step players g in
    Rating.counts g' o = (Rating.counts g o + length (members o players))%nat
    /\ Rating.totals g' o = fold_left Rplus (members o players) (Rating.totals g o)
    /\ Rating.group_elos g' o = Rating.group_elos g o ++ members o players.
Proof.
  induction players as [|[o' e] rest IH]; intros g o; cbn zeta.
  - cbn. rewrite Nat.add_0_r, app_nil_r. auto.
  - cbn [fold_left]. destruct (IH (Rating.group_step g (o', e)) o) as (Hc & Ht & He).
    rewrite Hc, Ht, He. unfold members. cbn [filter fst].
    destruct o, o'; cbn; rewrite <- ?app_assoc; cbn; repeat split; lia.
Qed.

Lemma group_counts (outcomes : list Outcome) (elos : list R) (o : Outcome) :
  Rating.counts (Rating.group_players outcomes elos) o
  = length (members o (combine outcomes elos)).
Proof. unfold Rating.group_players. apply (group_fold _ Rating.groups_init o). Qed.

Lemma group_totals (outcomes : list Outcome) (elos : list R) (o : Outcome) :
  Rating.totals (Rating.group_players outcomes elos) o
  = sum (members o (combine outcomes elos)).
Proof. unfold Rating.group_players. apply (group_fold _ Rating.groups_init o). Qed.

Lemma group_elos_members (outcomes : list Outcome) (elos : list R) (o : Outcome) :
  Rating.group_elos (Rating.group_players outcomes elos) o
  = members o (combine outcomes elos).
Proof. unfold Rating.group_players. apply (group_fold _ Rating.groups_init o). Qed.

Lemma member_counted (outcomes : list Outcome) (elos : list R) (o : Outcome) (e : R) :
  In (o, e) (combine outcomes elos) ->
  Rating.counts (Rating.group_players outcomes elos) o <> 0%nat.
Proof.
  intros Hin. rewrite group_counts. unfold members.
  assert (H : In e (map snd (filter (fun p => Outcome_eqb (fst p) o)
                                    (combine outcomes elos)))).
  { apply in_map_iff. exists (o, e). split; [reflexivity|].
    apply filter_In. split; [assumption|]. destruct o; reflexivity. }
  destruct (map snd _); [contradiction | discriminate].
Qed.

Lemma INR_pos_of_lt (n : nat) : (0 < n)%nat -> 0 < INR n.
Proof. intros H. apply lt_0_INR. assumption. Qed.

(** ** The player loop *)

Lemma player_deltas_nth (k : R) (g : Rating.groups) (players : list (Outcome * R)) :
  forall deltas i p d,
    Rating.player_deltas k g players = Ok deltas ->
    nth_error players i = Some p -> nth_error deltas i = Some d ->
    Rating.player_delta k g p = Ok d.
Proof.
  induction players as [|q rest IH]; intros deltas i p d H Hp Hd.
  - destruct i; discriminate.
  - simpl in H.
    destruct (bind_Ok _ _ _ H) as (d0 & Hd0 & H1).
    destruct (bind_Ok _ _ _ H1) as (ds & Hds & H2).
    injection H2 as <-.
    destruct i as [|i]; simpl in *.
    + congruence.
    + eapply IH; eassumption.
Qed.

Lemma player_deltas_length (k : R) (g : Rating.groups) (players : list (Outcome * R)) :
  forall deltas, Rating.player_deltas k g players = Ok deltas ->
                 length deltas = length players.
Proof.
  induction players as [|q rest IH]; intros deltas H; simpl in H.
  - injection H as <-. reflexivity.
  - destruct (bind_Ok _ _ _ H) as (d0 & Hd0 & H1).
    destruct (bind_Ok _ _ _ H1) as (ds & Hds & H2).
    injection H2 as <-. simpl. f_equal. auto.
Qed.

(** The intra-group portion always is the draw formula against the mirror. *)
Lemma intra_group_value (k : R) (g : Rating.groups) (elo x d : R) :
  Rating.intra_group k g elo x = Ok d ->
  exists p opp,
    index elo (Rating.single_team_elos g) = Ok p
    /\ nth_error (Rating.single_team_elos g)
                 (length (Rating.single_team_elos g) - p - 1) = Some opp
    /\ d = x + Rating._calculate_delta_scores_pair k elo opp (1 / 2).
Proof.
  unfold Rating.intra_group. intros H.
  destruct (bind_Ok _ _ _ H) as (p & Hp & H1).
  destruct (bind_Ok _ _ _ H1) as (opp & Hopp & H2).
  apply getitem_Ok in Hopp.
  exists p, opp. repeat split; try assumption.
  destruct (Nat.eqb_spec (length (Rating.single_team_elos g) - p - 1) p) as [E|E].
  - injection H2 as <-.
    rewrite E in Hopp. rewrite (index_nth _ _ _ Hp) in Hopp. injection Hopp as <-.
    rewrite pair_same. lra.
  - injection H2 as <-. reflexivity.
Qed.

(** ** The assertions *)

Lemma Rltb_true (a b : R) : a < b -> Rltb a b = true.
Proof. intros H. unfold Rltb. destruct (Rlt_dec a b); [reflexivity | contradiction]. Qed.

Lemma isclose_eq (a b rel_tol abs_tol : R) : a = b -> isclose a b rel_tol abs_tol = true.
Proof.
  intros ->. unfold isclose, Reqb.
  destruct (Req_dec_T b b); [reflexivity | contradiction].
Qed.

Lemma zero_sum_assert (deltas : list R) :
  sum deltas = 0 ->
  assert (Rltb (- (1 / 1000000)) (sum deltas) && Rltb (sum deltas) (1 / 1000000)) = Ok tt.
Proof. intros ->. rewrite !Rltb_true by lra. reflexivity. Qed.

(** The deltas the engine returns are those of the player loop. *)
Lemma engine_returns_loop (k : R) (outcomes : list Outcome) (elos deltas : list R) :
  Rating._calculate_delta_scores k outcomes elos = Ok deltas ->
  Rating.player_deltas k (Rating.group_players outcomes elos) (combine outcomes elos)
  = Ok deltas.
Proof.
  unfold Rating._calculate_delta_scores. intros H.
  destruct (bind_Ok _ _ _ H) as (ds & Hds & H1).
  destruct (bind_Ok _ _ _ H1) as (? & _ & H2).
  destruct (bind_Ok _ _ _ H2) as (? & _ & H3).
  destruct (bind_Ok _ _ _ H3) as (? & _ & H4).
  congruence.
Qed.

(** What is returned sums to zero within the tolerance and has one delta per
    outcome: the two assertions of the source. *)
Lemma returned_deltas_zero_sum (k : R) (outcomes : list Outcome) (elos deltas : list R) :
  Rating._calculate_delta_scores k outcomes elos = Ok deltas ->
  length deltas = length outcomes /\ Rabs (sum deltas) < 1 / 1000000.
Proof.
  unfold Rating._calculate_delta_scores. intros H.
  apply bind_Ok in H as (ds & _ & H).
  apply bind_Ok in H as ([] & Hlen & H).
  apply bind_Ok in H as ([] & Hsum & H).
  apply bind_Ok in H as ([] & _ & H). injection H as <-.
  unfold assert in Hlen, Hsum. split.
  - destruct (Nat.eqb_spec (length ds) (length outcomes)); [assumption | discriminate].
  - unfold Rltb in Hsum.
    destruct (Rlt_dec (- (1 / 1000000)) (sum ds)); [|discriminate].
    destruct (Rlt_dec (sum ds) (1 / 1000000)); [|discriminate].
    apply Rabs_def1; lra.
Qed.

(** The engine returns the deltas of the loop when they pass the
    assertions. *)
Lemma engine_returns (k : R) (outcomes : list Outcome) (elos deltas : list R) :
  Rating.player_deltas k (Rating.group_players outcomes elos) (combine outcomes elos)
  = Ok deltas ->
  length deltas = length outcomes ->
  sum deltas = 0 ->
  Rating.two_player_check k outcomes elos deltas = Ok tt ->
  Rating._calculate_delta_scores k outcomes elos = Ok deltas.
Proof.
  intros Hloop Hlen Hsum Htwo. unfold Rating._calculate_delta_scores.
  rewrite Hloop. cbn [bind]. rewrite Hlen, Nat.eqb_refl. cbn [assert bind].
  rewrite zero_sum_assert by assumption. cbn [bind]. rewrite Htwo. reflexivity.
Qed.

(** ** Evaluating the engine on given inputs *)

Ltac engine_cbn :=
  cbn [Rating._calculate_delta_scores Rating.player_deltas Rating.player_delta
       Rating.inter_group Rating.intra_group Rating.is_single_team
       Rating.single_team_elos Rating.single_team_outcome Rating.div_count
       Rating.win_loss Rating.win_draw Rating.loss_draw Rating.two_player_check
       Rating.group_players Rating.group_step Rating.groups_init
       Rating.counts Rating.totals Rating.group_elos
       oset Outcome_eqb combine fold_left bind assert getitem nth_error
       sorted insert index list_min list_max sum length app
       Nat.eqb Nat.ltb Nat.leb Nat.sub Nat.add andb negb orb].

(** Settles one comparison between numbers that [lra] can decide. *)
Ltac decide_R :=
  match goal with
  | |- context [Rcase_abs ?a] =>
      destruct (Rcase_abs a); [ try (exfalso; lra) | try (exfalso; lra) ]
  | |- context [Rle_dec ?a ?b] =>
      destruct (Rle_dec a b); [ try (exfalso; lra) | try (exfalso; lra) ]
  | |- context [Req_dec_T ?a ?b] =>
      destruct (Req_dec_T a b); [ try (exfalso; lra) | try (exfalso; lra) ]
  | |- context [Rlt_dec ?a ?b] =>
      destruct (Rlt_dec a b); [ try (exfalso; lra) | try (exfalso; lra) ]
  end.

Ltac engine_eval :=
  repeat first [ progress engine_cbn
               | progress unfold Rating.intra_group, Rating.single_team_elos
               | decide_R ].

Ltac list_eq :=
  apply (f_equal Ok); repeat (apply f_equal2; [ try field; try lra | ]); try reflexivity.

(** Brings the formula between two ratings 400 points apart to its value. *)
Ltac pair_400 lo hi :=
  try replace (0 + lo) with lo by lra;
  try replace (0 + hi) with hi by lra;
  replace hi with (lo + 400) by lra;
  rewrite ?pair_up_400, ?pair_down_400.

Ltac asserts_eval :=
  simpl INR; unfold Rltb, isclose, Reqb, Rleb, Rabs; engine_eval.

(** C10: on the empty outcome list and the empty rating list the engine
    returns the empty list, whatever the turbulence: the player loop has no
    turn (so nothing is divided and nothing is looked up), the two assertions
    hold and the two-player comparison is skipped. *)
Theorem empty_match_returns_empty (k : R) :
  Rating._calculate_delta_scores k [] [] = Ok []
  /\ (forall g, Rating.player_deltas k g [] = Ok [])
  /\ assert (length (@nil R) =? length (@nil Outcome))%nat = Ok tt
  /\ assert (Rltb (- (1 / 1000000)) (sum []) && Rltb (sum []) (1 / 1000000)) = Ok tt
  /\ Rating.two_player_check k [] [] [] = Ok tt.
Proof.
  split; [|split; [|split; [|split]]]; try reflexivity.
  - unfold Rating._calculate_delta_scores. engine_eval. asserts_eval. reflexivity.
  - apply zero_sum_assert. reflexivity.
Qed.

(** C1: zero-sum fails when players of a single group share a rating.  Three
    players draw with ratings 1000, 1000 and 1400 and turbulence 32: both
    players rated 1000 are paired with the player rated 1400, the deltas of
    the loop are 144/11, 144/11 and -144/11, their sum is 144/11, and the
    engine raises [AssertionError] where the spec has it return a zero-sum
    list. *)
Theorem zero_sum_fails_on_shared_rating :
  Rating.player_deltas 32
    (Rating.group_players [Draw; Draw; Draw] [1000; 1000; 1400])
    (combine [Draw; Draw; Draw] [1000; 1000; 1400])
  = Ok [144 / 11; 144 / 11; - (144 / 11)]
  /\ Rating._calculate_delta_scores 32 [Draw; Draw; Draw] [1000; 1000; 1400]
     = Raise AssertionError.
Proof.
  split.
  - engine_eval. pair_400 1000 1400. simpl INR. list_eq.
  - unfold Rating._calculate_delta_scores. engine_eval. pair_400 1000 1400.
    asserts_eval. reflexivity.
Qed.

(** C2: two players, the first draws and the second loses, ratings 1000
    and 1400, turbulence 32.  The loop gives the first player 320/11 (the
    formula with win-weight 1), the formula with win-weight 0 gives -32/11,
    and the closing comparison of the engine raises [AssertionError]: no
    delta is returned for this pair of outcomes. *)
Theorem draw_loss_pair_is_rejected :
  Rating.player_deltas 32
    (Rating.group_players [Draw; Loss] [1000; 1400])
    (combine [Draw; Loss] [1000; 1400])
  = Ok [320 / 11; - (320 / 11)]
  /\ Rating._calculate_delta_scores_pair 32 1000 1400 0 = - (32 / 11)
  /\ Rating._calculate_delta_scores 32 [Draw; Loss] [1000; 1400]
     = Raise AssertionError.
Proof.
  split; [|split].
  - engine_eval. pair_400 1000 1400. simpl INR. list_eq.
  - pair_400 1000 1400. field.
  - unfold Rating._calculate_delta_scores. engine_eval. pair_400 1000 1400.
    asserts_eval. reflexivity.
Qed.

(** C3: three players all win with ratings 1200, 1600 and 1200, turbulence
    32.  The team sorted ascending is 1200, 1200, 1600; its middle position
    holds a player rated 1200, yet both players rated 1200 receive 144/11
    (the draw formula against 1600) and none receives 0; the engine then
    raises [AssertionError]. *)
Theorem middle_member_not_zero_on_shared_rating :
  Rating.single_team_elos (Rating.group_players [Win; Win; Win] [1200; 1600; 1200])
  = [1200; 1200; 1600]
  /\ Rating.player_deltas 32
       (Rating.group_players [Win; Win; Win] [1200; 1600; 1200])
       (combine [Win; Win; Win] [1200; 1600; 1200])
     = Ok [144 / 11; - (144 / 11); 144 / 11]
  /\ Rating._calculate_delta_scores_pair 32 1200 1600 (1 / 2) = 144 / 11
  /\ Rating._calculate_delta_scores 32 [Win; Win; Win] [1200; 1600; 1200]
     = Raise AssertionError.
Proof.
  split; [|split; [|split]].
  - engine_eval. reflexivity.
  - engine_eval. pair_400 1200 1600. simpl INR. list_eq.
  - pair_400 1200 1600. field.
  - unfold Rating._calculate_delta_scores. engine_eval. pair_400 1200 1600.
    asserts_eval. reflexivity.
Qed.

(** The example of the spec: five players all drawing with ratings 1000 to
    5000.  The first and the fifth get opposite deltas, so do the second and
    the fourth, and the third gets 0. *)
Lemma five_draws_mirror (k : R) :
  let d1 := Rating._calculate_delta_scores_pair k 1000 5000 (1 / 2) in
  let d2 := Rating._calculate_delta_scores_pair k 2000 4000 (1 / 2) in
  Rating._calculate_delta_scores k [Draw; Draw; Draw; Draw; Draw]
    [1000; 2000; 3000; 4000; 5000]
  = Ok [d1; d2; 0; - d2; - d1].
Proof.
  intros d1 d2.
  pose proof (pair_opposite k 1000 5000 (1 / 2)) as H1.
  pose proof (pair_opposite k 2000 4000 (1 / 2)) as H2.
  replace (1 - 1 / 2) with (1 / 2) in H1, H2 by lra. fold d1 in H1. fold d2 in H2.
  unfold Rating._calculate_delta_scores. engine_eval.
  fold d1 d2. rewrite H1, H2. simpl INR.
  rewrite Rltb_true, Rltb_true by lra. engine_cbn. list_eq.
Qed.

Lemma three_draws_return :
  Rating._calculate_delta_scores 32 [Draw; Draw; Draw] [1000; 1200; 1400]
  = Ok [144 / 11; 0; - (144 / 11)].
Proof.
  unfold Rating._calculate_delta_scores. engine_eval. pair_400 1000 1400.
  asserts_eval. list_eq.
Qed.

(** ** Two players *)

(** Two players with differing outcomes, the pair (Draw, Loss) apart: in
    exact arithmetic the engine returns the base formula for the first
    player, with win-weight 1 when the first player wins and 0 otherwise, and
    its negation for the second. *)
Lemma two_player_equivalence (k e0 e1 : R) (o0 o1 : Outcome) :
  o0 <> o1 -> (o0, o1) <> (Draw, Loss) ->
  let v := if Outcome_eqb o0 Win then 1 else 0 in
  Rating._calculate_delta_scores k [o0; o1] [e0; e1]
  = Ok [Rating._calculate_delta_scores_pair k e0 e1 v;
        - Rating._calculate_delta_scores_pair k e0 e1 v].
Proof.
  intros Hne Hdl.
  assert (E0 : forall x, 0 + x = x) by (intros; lra).
  pose proof (pair_opposite k e1 e0 1) as Hopp.
  replace (1 - 1) with 0 in Hopp by lra.
  destruct o0, o1; try congruence; cbn zeta; cbn [Outcome_eqb];
    apply engine_returns;
    try reflexivity;
    try (cbn [sum fold_left]; lra).
  all: try (engine_cbn; rewrite ?E0, ?Hopp; simpl INR; list_eq).
  all: engine_cbn; rewrite isclose_eq by reflexivity; reflexivity.
Qed.

(** ** The inter-group portions *)

Lemma sum_by_outcome (f : Outcome -> R) (players : list (Outcome * R)) :
  sum (map (fun p => f (fst p)) players)
  = INR (length (members Win players)) * f Win
    + INR (length (members Loss players)) * f Loss
    + INR (length (members Draw players)) * f Draw.
Proof.
  induction players as [|[o e] rest IH].
  - cbn [map members filter length]. unfold sum. cbn [fold_left INR]. lra.
  - cbn [map]. rewrite sum_cons, IH. unfold members. cbn [filter fst].
    destruct o; cbn [Outcome_eqb map length]; rewrite S_INR; lra.
Qed.

Lemma inter_total_empty (k : R) (g : Rating.groups) (o : Outcome) :
  Rating.counts g o = 0%nat -> inter_total k g o = 0.
Proof.
  intros H. unfold inter_total, Rating.win_loss, Rating.win_draw, Rating.loss_draw.
  destruct o; rewrite H; cbn [Nat.ltb Nat.leb andb]; rewrite ?andb_false_r; lra.
Qed.

Lemma inter_total_zero_sum (k : R) (g : Rating.groups) :
  inter_total k g Win + inter_total k g Loss + inter_total k g Draw = 0.
Proof. unfold inter_total. lra. Qed.

Lemma inter_group_Ok (k : R) (g : Rating.groups) (o : Outcome) :
  Rating.counts g o <> 0%nat ->
  Rating.inter_group k g o = Ok (inter_total k g o / INR (Rating.counts g o)).
Proof.
  intros H. unfold Rating.inter_group, Rating.div_count, inter_total.
  destruct o;
    match goal with
    | |- context [(?n =? 0)%nat] => destruct (Nat.eqb_spec n 0); congruence
    end.
Qed.

(** Whatever the input, the inter-group portions of all the players sum to
    zero: what a group wins from another is spread over its members. *)
Lemma inter_group_zero_sum (k : R) (outcomes : list Outcome) (elos : list R) :
  let g := Rating.group_players outcomes elos in
  sum (map (fun p => inter_total k g (fst p) / INR (Rating.counts g (fst p)))
           (combine outcomes elos)) = 0.
Proof.
  intros g.
  rewrite (sum_by_outcome (fun o => inter_total k g o / INR (Rating.counts g o))).
  rewrite <- !group_counts. fold g.
  assert (H : forall o, INR (Rating.counts g o)
                        * (inter_total k g o / INR (Rating.counts g o))
                        = inter_total k g o).
  { intros o. destruct (Nat.eq_dec (Rating.counts g o) 0) as [E|E].
    - rewrite (inter_total_empty k g o E), E. simpl. lra.
    - field. apply not_0_INR. assumption. }
  rewrite !H. apply inter_total_zero_sum.
Qed.

(** With players in two groups or more, the loop gives every player the
    inter-group portion of its group. *)
Lemma several_groups_loop (k : R) (outcomes : list Outcome) (elos : list R) :
  let g := Rating.group_players outcomes elos in
  Rating.single_team_outcome g = None ->
  Rating.player_deltas k g (combine outcomes elos)
  = Ok (map (fun p => inter_total k g (fst p) / INR (Rating.counts g (fst p)))
            (combine outcomes elos)).
Proof.
  intros g Hnone.
  assert (H : forall players,
             (forall o e, In (o, e) players -> Rating.counts g o <> 0%nat) ->
             Rating.player_deltas k g players
             = Ok (map (fun p => inter_total k g (fst p) / INR (Rating.counts g (fst p)))
                       players)).
  { induction players as [|[o e] rest IH]; intros Hc; [reflexivity|].
    cbn [Rating.player_deltas Rating.player_delta map fst].
    rewrite (inter_group_Ok k g o (Hc o e (or_introl eq_refl))). cbn [bind].
    unfold Rating.is_single_team. rewrite Hnone. cbn [bind].
    rewrite IH by (intros o' e' Hin; apply (Hc o' e'); right; assumption).
    reflexivity. }
  apply H. intros o e Hin. apply (member_counted outcomes elos o e Hin).
Qed.

(** With players in two groups or more the engine returns, in exact
    arithmetic, deltas that sum to exactly zero, unless the match is the
    two-player one (Draw, Loss). *)
Lemma several_groups_zero_sum (k : R) (outcomes : list Outcome) (elos : list R) :
  length outcomes = length elos ->
  Rating.single_team_outcome (Rating.group_players outcomes elos) = None ->
  outcomes <> [Draw; Loss] ->
  exists deltas,
    Rating._calculate_delta_scores k outcomes elos = Ok deltas
    /\ length deltas = length outcomes
    /\ sum deltas = 0.
Proof.
  intros Hlen Hnone Hdl.
  destruct outcomes as [|o0 [|o1 [|o2 rest]]].
  - discriminate.
  - destruct elos as [|e0 [|e1 elos]]; try discriminate. destruct o0; discriminate.
  - destruct elos as [|e0 [|e1 [|e2 elos]]]; try discriminate.
    assert (Hne : o0 <> o1) by (intros ->; destruct o1; discriminate).
    assert (Hp : (o0, o1) <> (Draw, Loss)) by congruence.
    eexists. split; [apply (two_player_equivalence k e0 e1 o0 o1 Hne Hp)|].
    split; [reflexivity|]. cbn [sum fold_left]. lra.
  - eexists. split; [|split].
    + apply engine_returns.
      * apply several_groups_loop. assumption.
      * rewrite length_map, length_combine, <- Hlen. apply Nat.min_id.
      * apply inter_group_zero_sum.
      * reflexivity.
    + rewrite length_map, length_combine, <- Hlen. apply Nat.min_id.
    + apply inter_group_zero_sum.
Qed.

(** C9, as the claim has it, fails on the numbers the code computes with:
    eight players rated 1000 draw and one player rated 1200 loses.  The
    summed ratings are 8000 and 1200, the powers are 1e20 and 1000, their sum
    rounds to 1e20, the expected score is 1.0, and the delta of the pairing is
    32 * (1 - 1.0) = 0.0: the share of a Draw member is not above zero and
    the share of the Loss member is not below zero. *)
Lemma draw_share_rounds_to_zero :
  Binary64._calculate_delta_scores_pair 32 8000 1200 1 = Some 0%float
  /\ Binary64.loss_draw 32
       (Binary64.group_players (repeat Draw 8 ++ [Loss]) (repeat 1000%float 8 ++ [1200%float]))
     = Some 0%float
  /\ (exists share,
        Binary64.inter_group 32
          (Binary64.group_players (repeat Draw 8 ++ [Loss])
             (repeat 1000%float 8 ++ [1200%float])) Draw = Some (Ok share)
        /\ PrimFloat.ltb 0 share = false)
  /\ (exists share,
        Binary64.inter_group 32
          (Binary64.group_players (repeat Draw 8 ++ [Loss])
             (repeat 1000%float 8 ++ [1200%float])) Loss = Some (Ok share)
        /\ PrimFloat.ltb share 0 = false).
Proof.
  split; [reflexivity|]. split; [reflexivity|].
  split; eexists; (split; [vm_compute; reflexivity | reflexivity]).
Qed.

(** C9, amended: when the Loss group and the Draw group both have members,
    their inter-group delta is the base formula on the summed rating of the
    Draw group (first) and of the Loss group with win-weight 1; the share of
    it that a Draw member gets is never negative and the share a Loss member
    gets never positive (turbulence not negative). *)
Theorem draw_group_not_behind_loss_group
    (k : R) (outcomes : list Outcome) (elos : list R) :
  let players := combine outcomes elos in
  let g := Rating.group_players outcomes elos in
  0 <= k ->
  members Loss players <> [] -> members Draw players <> [] ->
  Rating.loss_draw k g
  = Rating._calculate_delta_scores_pair k
      (sum (members Draw players)) (sum (members Loss players)) 1
  /\ Rating.inter_group k g Draw
     = Ok (Rating.loss_draw k g / INR (length (members Draw players))
           - Rating.win_draw k g / INR (length (members Draw players)))
  /\ Rating.inter_group k g Loss
     = Ok (- Rating.loss_draw k g / INR (length (members Loss players))
           - Rating.win_loss k g / INR (length (members Loss players)))
  /\ 0 <= Rating.loss_draw k g / INR (length (members Draw players))
  /\ - Rating.loss_draw k g / INR (length (members Loss players)) <= 0.
Proof.
  intros players g Hk HL HD.
  assert (HcL : (0 < length (members Loss players))%nat)
    by (destruct (members Loss players); [congruence | simpl; lia]).
  assert (HcD : (0 < length (members Draw players))%nat)
    by (destruct (members Draw players); [congruence | simpl; lia]).
  assert (Hld : Rating.loss_draw k g
                = Rating._calculate_delta_scores_pair k
                    (sum (members Draw players)) (sum (members Loss players)) 1).
  { unfold Rating.loss_draw, g. rewrite !group_counts, !group_totals.
    fold players.
    destruct (Nat.ltb_spec 0 (length (members Loss players))); [|lia].
    destruct (Nat.ltb_spec 0 (length (members Draw players))); [|lia].
    reflexivity. }
  pose proof (INR_pos_of_lt _ HcL) as PL.
  pose proof (INR_pos_of_lt _ HcD) as PD.
  assert (Hpos : 0 <= Rating.loss_draw k g).
  { rewrite Hld. unfold Rating._calculate_delta_scores_pair.
    pose proof (expected_bounds (sum (members Draw players)) (sum (members Loss players)))
      as [H0 H1].
    nra. }
  split; [exact Hld|].
  split; [|split; [|split]].
  - unfold Rating.inter_group, Rating.div_count, g. rewrite group_counts. fold players g.
    destruct (Nat.eqb_spec (length (members Draw players)) 0); [lia|].
    f_equal. field. lra.
  - unfold Rating.inter_group, Rating.div_count, g. rewrite group_counts. fold players g.
    destruct (Nat.eqb_spec (length (members Loss players)) 0); [lia|].
    f_equal. field. lra.
  - apply Rmult_le_pos; [assumption|]. left. apply Rinv_0_lt_compat. assumption.
  - assert (0 <= Rating.loss_draw k g * / INR (length (members Loss players))).
    { apply Rmult_le_pos; [assumption|]. left. apply Rinv_0_lt_compat. assumption. }
    unfold Rdiv. lra.
Qed.

Lemma draw_group_not_behind_loss_group_witness :
  0 <= Rating.loss_draw 32 (Rating.group_players [Loss; Draw; Draw] [1000; 1400; 1200])
       / INR 2
  /\ - Rating.loss_draw 32 (Rating.group_players [Loss; Draw; Draw] [1000; 1400; 1200])
       / INR 1 <= 0.
Proof.
  destruct (draw_group_not_behind_loss_group 32 [Loss; Draw; Draw] [1000; 1400; 1200])
    as (_ & _ & _ & HD & HL); [lra | discriminate | discriminate |].
  split; [exact HD | exact HL].
Defined.

(** ** A single group *)

Lemma combine_app_same {A B : Type} (a a' : list A) (b b' : list B) :
  length a = length b ->
  combine (a ++ a') (b ++ b') = combine a b ++ combine a' b'.
Proof.
  revert b. induction a as [|x a IH]; intros [|y b] H; try discriminate; simpl.
  - reflexivity.
  - f_equal. apply IH. simpl in H. lia.
Qed.

Lemma rev_combine {A B : Type} (a : list A) (b : list B) :
  length a = length b -> rev (combine a b) = combine (rev a) (rev b).
Proof.
  revert b. induction a as [|x a IH]; intros [|y b] H; try discriminate; simpl.
  - reflexivity.
  - simpl in H. rewrite combine_app_same by (rewrite !length_rev; lia).
    rewrite IH by lia. reflexivity.
Qed.

Lemma map_combine_swap {A B C : Type} (f : A * B -> C) (a : list A) (b : list B) :
  map f (combine a b) = map (fun p => f (snd p, fst p)) (combine b a).
Proof.
  revert b. induction a as [|x a IH]; intros [|y b]; simpl; try reflexivity.
  f_equal. apply IH.
Qed.

(** Pairing a list with its reverse and drawing every pair sums to zero. *)
Lemma mirrored_draws_zero_sum (k : R) (l : list R) :
  sum (map (fun p => Rating._calculate_delta_scores_pair k (fst p) (snd p) (1 / 2))
           (combine l (rev l))) = 0.
Proof.
  set (h := fun p : R * R => Rating._calculate_delta_scores_pair k (fst p) (snd p) (1 / 2)).
  assert (H : sum (map h (combine l (rev l))) = - sum (map h (combine l (rev l)))).
  { rewrite <- sum_map_opp.
    rewrite <- (sum_rev (map h (combine l (rev l)))), <- map_rev.
    rewrite rev_combine by (rewrite length_rev; reflexivity).
    rewrite rev_involutive, map_combine_swap.
    f_equal. apply map_ext. intros [a b]. unfold h. cbn [fst snd].
    pose proof (pair_opposite k a b (1 / 2)) as Ho.
    replace (1 - 1 / 2) with (1 / 2) in Ho by lra. exact Ho. }
  lra.
Qed.

Lemma mirror_pairs (k : R) (team : list R) :
  NoDup team ->
  map (fun e => Rating._calculate_delta_scores_pair k e (mirror team e) (1 / 2)) team
  = map (fun p => Rating._calculate_delta_scores_pair k (fst p) (snd p) (1 / 2))
        (combine team (rev team)).
Proof.
  intros Hnd.
  set (F := fun e => Rating._calculate_delta_scores_pair k e (mirror team e) (1 / 2)).
  set (h := fun p : R * R => Rating._calculate_delta_scores_pair k (fst p) (snd p) (1 / 2)).
  apply (nth_ext _ _ (F 0) (h (0, 0))).
  - rewrite !length_map, length_combine, length_rev. symmetry. apply Nat.min_id.
  - intros n Hn. rewrite length_map in Hn.
    rewrite (map_nth F), (map_nth h).
    rewrite combine_nth by (rewrite length_rev; reflexivity).
    rewrite rev_nth by assumption.
    unfold F, h, mirror. cbn [fst snd].
    rewrite (index_NoDup team n (nth n team 0) Hnd (nth_error_nth' team 0 Hn)).
    replace (length team - n - 1)%nat with (length team - S n)%nat by lia.
    rewrite (nth_indep team (nth n team 0) 0) by lia. reflexivity.
Qed.

(** The player in the middle of a team of odd size is its own mirror. *)
Lemma mirror_middle (team : list R) (p : nat) (e : R) :
  index e team = Ok p -> length team = (2 * p + 1)%nat -> mirror team e = e.
Proof.
  intros Hp Hlen. unfold mirror. rewrite Hp.
  replace (length team - p - 1)%nat with p by lia.
  apply nth_error_nth. apply index_nth. assumption.
Qed.

Lemma members_single (o o' : Outcome) (elos : list R) :
  members o' (combine (repeat o (length elos)) elos)
  = if Outcome_eqb o o' then elos else [].
Proof.
  unfold members. destruct (Outcome_eqb o o') eqn:E.
  - induction elos as [|e t IH]; [reflexivity|].
    cbn [length repeat combine filter fst]. rewrite E. cbn [map snd]. f_equal. exact IH.
  - induction elos as [|e t IH]; [reflexivity|].
    cbn [length repeat combine filter fst]. rewrite E. exact IH.
Qed.

Section SingleGroup.

Variables (k : R) (o : Outcome) (elos : list R).
Hypothesis nonempty : elos <> [].

Let g := Rating.group_players (repeat o (length elos)) elos.

Lemma single_counts (o' : Outcome) :
  Rating.counts g o' = if Outcome_eqb o o' then length elos else 0%nat.
Proof.
  unfold g. rewrite group_counts, members_single.
  destruct (Outcome_eqb o o'); reflexivity.
Qed.

Lemma single_length_pos : (0 < length elos)%nat.
Proof. destruct elos; [congruence | simpl; lia]. Qed.

Lemma single_outcome : Rating.single_team_outcome g = Some o.
Proof.
  unfold Rating.single_team_outcome. rewrite !single_counts.
  pose proof single_length_pos as Hpos.
  destruct o; cbn [Outcome_eqb];
    destruct (length elos) as [|n]; try lia; cbn [Nat.eqb andb]; reflexivity.
Qed.

Lemma single_team : Rating.single_team_elos g = sorted elos.
Proof.
  unfold Rating.single_team_elos. rewrite single_outcome.
  unfold g. rewrite group_elos_members, members_single.
  destruct o; reflexivity.
Qed.

Lemma single_inter : exists x, Rating.inter_group k g o = Ok x /\ x = 0.
Proof.
  pose proof single_length_pos as Hpos.
  assert (Hc : Rating.counts g o = length elos)
    by (rewrite single_counts; destruct o; reflexivity).
  assert (Hwl : Rating.win_loss k g = 0).
  { unfold Rating.win_loss. rewrite !single_counts. destruct o; cbn [Outcome_eqb];
      rewrite ?andb_false_r; reflexivity. }
  assert (Hwd : Rating.win_draw k g = 0).
  { unfold Rating.win_draw. rewrite !single_counts. destruct o; cbn [Outcome_eqb];
      rewrite ?andb_false_r; reflexivity. }
  assert (Hld : Rating.loss_draw k g = 0).
  { unfold Rating.loss_draw. rewrite !single_counts. destruct o; cbn [Outcome_eqb];
      rewrite ?andb_false_r; reflexivity. }
  assert (Hn : INR (length elos) <> 0) by (apply not_0_INR; lia).
  unfold Rating.inter_group, Rating.div_count.
  destruct o; rewrite Hc, ?Hwl, ?Hwd, ?Hld;
    (destruct (Nat.eqb_spec (length elos) 0); [lia|]);
    eexists; (split; [reflexivity|]); field; assumption.
Qed.

Lemma single_player (e : R) :
  In e elos ->
  Rating.player_delta k g (o, e)
  = Ok (Rating._calculate_delta_scores_pair k e (mirror (sorted elos) e) (1 / 2)).
Proof.
  intros Hin. unfold Rating.player_delta.
  destruct single_inter as (x & -> & ->). cbn [bind].
  unfold Rating.is_single_team. rewrite single_outcome.
  replace (Outcome_eqb o o) with true by (destruct o; reflexivity).
  unfold Rating.intra_group. rewrite single_team.
  assert (HinS : In e (sorted elos))
    by (eapply Permutation_in; [apply sorted_perm | exact Hin]).
  destruct (index_In e (sorted elos) HinS) as (p & Hp).
  unfold mirror. rewrite Hp. cbn [bind].
  pose proof (index_lt _ _ _ Hp) as Hlt.
  unfold getitem.
  rewrite (nth_error_nth' (sorted elos) e) by lia. cbn [bind].
  destruct (Nat.eqb_spec (length (sorted elos) - p - 1) p) as [E|E].
  - rewrite E. rewrite (nth_error_nth _ _ e (index_nth _ _ _ Hp)).
    rewrite pair_same. f_equal. lra.
  - f_equal. lra.
Qed.

Lemma single_loop :
  Rating.player_deltas k g (combine (repeat o (length elos)) elos)
  = Ok (map (fun e => Rating._calculate_delta_scores_pair k e (mirror (sorted elos) e) (1 / 2))
            elos).
Proof.
  assert (H : forall l, incl l elos ->
             Rating.player_deltas k g (combine (repeat o (length l)) l)
             = Ok (map (fun e => Rating._calculate_delta_scores_pair k e
                                   (mirror (sorted elos) e) (1 / 2)) l)).
  { induction l as [|e t IH]; intros Hincl; [reflexivity|].
    cbn [length repeat combine Rating.player_deltas map].
    rewrite single_player by (apply Hincl; left; reflexivity). cbn [bind].
    rewrite IH by (intros x Hx; apply Hincl; right; assumption). reflexivity. }
  apply H. apply incl_refl.
Qed.

Lemma single_zero_sum :
  NoDup elos ->
  sum (map (fun e => Rating._calculate_delta_scores_pair k e (mirror (sorted elos) e) (1 / 2))
           elos) = 0.
Proof.
  intros Hnd.
  rewrite (sum_perm _ _ (Permutation_map _ (sorted_perm elos))).
  rewrite mirror_pairs by (eapply Permutation_NoDup; [apply sorted_perm | exact Hnd]).
  apply mirrored_draws_zero_sum.
Qed.

End SingleGroup.

Lemma single_two_player_check (k : R) (o : Outcome) (elos : list R) :
  0 <= k -> NoDup elos ->
  Rating.two_player_check k (repeat o (length elos)) elos
    (map (fun e => Rating._calculate_delta_scores_pair k e (mirror (sorted elos) e) (1 / 2))
         elos) = Ok tt.
Proof.
  intros Hk Hnd.
  destruct elos as [|e0 [|e1 [|e2 rest]]]; try reflexivity.
  destruct o; try reflexivity.
  assert (Hne : e0 <> e1).
  { inversion Hnd as [|? ? Hnotin _]; subst. intros ->. apply Hnotin. left. reflexivity. }
  pose proof (pair_opposite k e0 e1 (1 / 2)) as Hopp.
  replace (1 - 1 / 2) with (1 / 2) in Hopp by lra.
  pose proof (pair_opposite k e1 e0 (1 / 2)) as Hopp'.
  replace (1 - 1 / 2) with (1 / 2) in Hopp' by lra.
  cbn [length repeat map]. unfold mirror.
  destruct (Rtotal_order e0 e1) as [Hlt|[Heq|Hgt]]; [|contradiction|].
  - pose proof (draw_sign k e0 e1 Hk (Rlt_le _ _ Hlt)) as Hs.
    repeat first [ progress engine_cbn | progress cbn [nth] | decide_R ].
    set (x := Rating._calculate_delta_scores_pair k e0 e1 (1 / 2)) in *.
    rewrite Hopp. unfold Rmin, Rmax.
    repeat first [ progress engine_cbn | decide_R ].
    all: fold x; unfold isclose, Reqb, Rleb;
      repeat first [ progress engine_cbn | decide_R ]; reflexivity.
  - pose proof (draw_sign k e1 e0 Hk (Rlt_le _ _ Hgt)) as Hs.
    repeat first [ progress engine_cbn | progress cbn [nth] | decide_R ].
    set (x := Rating._calculate_delta_scores_pair k e1 e0 (1 / 2)) in *.
    rewrite Hopp'. unfold Rmin, Rmax.
    repeat first [ progress engine_cbn | decide_R ].
    all: fold x; unfold isclose, Reqb, Rleb;
      repeat first [ progress engine_cbn | decide_R ]; reflexivity.
Qed.

(** When all the players have the same outcome and no two of them the same
    rating, the engine returns, for every player, the draw formula between
    its rating and the rating at the mirror position of the sorted team (0
    for the player in the middle), and these deltas sum to exactly zero. *)
Lemma single_group_mirror (k : R) (o : Outcome) (elos : list R) :
  0 <= k -> elos <> [] -> NoDup elos ->
  let deltas :=
    map (fun e => Rating._calculate_delta_scores_pair k e (mirror (sorted elos) e) (1 / 2))
        elos in
  Rating._calculate_delta_scores k (repeat o (length elos)) elos = Ok deltas
  /\ sum deltas = 0.
Proof.
  intros Hk Hne Hnd deltas. split.
  - apply engine_returns.
    + apply single_loop. assumption.
    + unfold deltas. rewrite length_map, repeat_length. reflexivity.
    + apply single_zero_sum. assumption.
    + apply single_two_player_check; assumption.
  - apply single_zero_sum. assumption.
Qed.

(** ** Handicap *)

(** In exact arithmetic: whenever the engine returns, of two players with
    the same outcome the one with the strictly lower rating does not get the
    strictly smaller delta (turbulence not negative).  In several groups the
    two deltas are the same number; in a single group they are the draw
    formula at a lower own rating and at an opponent rating that is not
    lower, and the order of the two results rests on [pair_monotone], which
    the rounded formula satisfies up to its last bits only. *)
Lemma lower_rated_never_gets_less
    (k : R) (outcomes : list Outcome) (elos deltas : list R)
    (i j : nat) (o : Outcome) (ei ej di dj : R) :
  0 <= k ->
  Rating._calculate_delta_scores k outcomes elos = Ok deltas ->
  nth_error outcomes i = Some o -> nth_error outcomes j = Some o ->
  nth_error elos i = Some ei -> nth_error elos j = Some ej ->
  nth_error deltas i = Some di -> nth_error deltas j = Some dj ->
  ei < ej ->
  dj <= di.
Proof.
  intros Hk Hret Hoi Hoj Hei Hej Hdi Hdj Hlt.
  apply engine_returns_loop in Hret.
  set (g := Rating.group_players outcomes elos) in *.
  assert (Hpi : nth_error (combine outcomes elos) i = Some (o, ei)).
  { clear -Hoi Hei. revert outcomes elos Hoi Hei.
    induction i as [|i IH]; intros [|a os] [|b es]; simpl; try discriminate.
    - congruence.
    - apply IH. }
  assert (Hpj : nth_error (combine outcomes elos) j = Some (o, ej)).
  { clear -Hoj Hej. revert outcomes elos Hoj Hej.
    induction j as [|j IH]; intros [|a os] [|b es]; simpl; try discriminate.
    - congruence.
    - apply IH. }
  pose proof (player_deltas_nth _ _ _ _ _ _ _ Hret Hpi Hdi) as Di.
  pose proof (player_deltas_nth _ _ _ _ _ _ _ Hret Hpj Hdj) as Dj.
  unfold Rating.player_delta in Di, Dj.
  destruct (bind_Ok _ _ _ Di) as (x & Hx & Di').
  destruct (bind_Ok _ _ _ Dj) as (x' & Hx' & Dj').
  assert (x' = x) by congruence. subst x'.
  destruct (Rating.is_single_team g o).
  - destruct (intra_group_value _ _ _ _ _ Di') as (p & oi & Hp & Hoppi & ->).
    destruct (intra_group_value _ _ _ _ _ Dj') as (q & oj & Hq & Hoppj & ->).
    set (team := Rating.single_team_elos g) in *.
    assert (Hs : StronglySorted Rle team).
    { unfold team, Rating.single_team_elos.
      destruct (Rating.single_team_outcome g); [apply sorted_StronglySorted | constructor]. }
    assert (Hpq : (p < q)%nat).
    { destruct (Nat.lt_ge_cases p q) as [|Hge]; [assumption|]. exfalso.
      pose proof (StronglySorted_nth _ Hs _ _ _ _ Hge
                    (index_nth _ _ _ Hq) (index_nth _ _ _ Hp)). lra. }
    assert (oj <= oi).
    { eapply (StronglySorted_nth _ Hs); [|exact Hoppj|exact Hoppi]. lia. }
    apply Rplus_le_compat_l. apply pair_monotone; lra.
  - injection Di' as <-. injection Dj' as <-. lra.
Qed.

Lemma lower_rated_never_gets_less_witness :
  Rating._calculate_delta_scores 32 [Draw; Draw; Draw] [1000; 1200; 1400]
  = Ok [144 / 11; 0; - (144 / 11)]
  /\ - (144 / 11) <= 144 / 11.
Proof.
  split; [exact three_draws_return|].
  apply (lower_rated_never_gets_less 32 [Draw; Draw; Draw] [1000; 1200; 1400]
           [144 / 11; 0; - (144 / 11)] 0 2 Draw 1000 1400 (144 / 11) (- (144 / 11)));
    try reflexivity; [lra | exact three_draws_return | lra].
Defined.

(** ** Dictionaries and grouped rows *)

Lemma find_append {A : Type} (f : A -> bool) (l1 l2 : list A) :
  find f (l1 ++ l2) = match find f l1 with Some x => Some x | None => find f l2 end.
Proof.
  induction l1 as [|x t IH]; simpl; [reflexivity|].
  destruct (f x); [reflexivity | exact IH].
Qed.

Lemma dict_fold (rows : list (nat * R)) :
  forall (d : nat -> option R) (key : nat),
    fold_left (fun d row key => if (key =? fst row)%nat then Some (snd row) else d key)
              rows d key
    = match find (fun row => (key =? fst row)%nat) (rev rows) with
      | Some row => Some (snd row)
      | None => d key
      end.
Proof.
  induction rows as [|row rest IH]; intros d key; simpl.
  - reflexivity.
  - rewrite IH, find_append.
    destruct (find (fun row0 => (key =? fst row0)%nat) (rev rest)); [reflexivity|].
    simpl. destruct (key =? fst row)%nat; reflexivity.
Qed.

Lemma dict_of_Some (rows : list (nat * R)) (key : nat) (v : R) :
  dict_of rows key = Some v -> In (key, v) rows.
Proof.
  unfold dict_of. rewrite dict_fold.
  destruct (find _ (rev rows)) as [[key' v']|] eqn:E; [|discriminate].
  intros H. injection H as <-. apply find_some in E. destruct E as [Hin Hk].
  apply Nat.eqb_eq in Hk. simpl in Hk. subst key'. apply in_rev. assumption.
Qed.

Lemma dict_of_None (rows : list (nat * R)) (key : nat) (v : R) :
  dict_of rows key = None -> ~ In (key, v) rows.
Proof.
  unfold dict_of. rewrite dict_fold.
  destruct (find _ (rev rows)) as [row|] eqn:E; [discriminate|].
  intros _ Hin. apply in_rev in Hin.
  pose proof (find_none _ _ E _ Hin) as Hk. simpl in Hk.
  rewrite Nat.eqb_refl in Hk. discriminate.
Qed.

Lemma group_by_sum_In (rows : list (nat * R)) (key : nat) (v : R) :
  In (key, v) (group_by_sum rows)
  <-> In key (map fst rows)
      /\ v = sum (map snd (filter (fun row => fst row =? key)%nat rows)).
Proof.
  unfold group_by_sum. rewrite in_map_iff. split.
  - intros (key' & E & Hin). injection E as -> <-.
    apply nodup_In in Hin. auto.
  - intros (Hin & ->). exists key. split; [reflexivity|].
    apply nodup_In. assumption.
Qed.

(** ** The rating query *)

Lemma filter_and_const {A : Type} (f : A -> bool) (b : bool) (l : list A) :
  filter (fun a => f a && b) l = if b then filter f l else [].
Proof.
  destruct b.
  - apply filter_ext. intros a. apply andb_true_r.
  - induction l as [|a t IH]; simpl; [reflexivity|]. rewrite andb_false_r. exact IH.
Qed.

Lemma block_sum (s : Submission.t) (u : nat) (l : list Result.t) :
  sum (map snd (filter (fun row : nat * R => fst row =? u)%nat
                       (map (fun r => (Submission.user_id s, Result.points_delta r)) l)))
  = if (Submission.user_id s =? u)%nat then sum (map Result.points_delta l) else 0.
Proof.
  induction l as [|r t IH]; simpl.
  - destruct (Submission.user_id s =? u)%nat; reflexivity.
  - destruct (Submission.user_id s =? u)%nat eqn:E; simpl.
    + rewrite !sum_cons, IH. reflexivity.
    + exact IH.
Qed.

Lemma rows_sum (rs : list Result.t) (ids : list nat) (u : nat) (L : list Submission.t) :
  NoDup (map Submission.id L) ->
  sum (map snd (filter (fun row : nat * R => fst row =? u)%nat (match_rows rs ids L)))
  = sum (map Result.points_delta
           (filter (fun r => existsb
                     (fun s => (Result.submission_id r =? Submission.id s)%nat
                               && (Submission.user_id s =? u)%nat
                               && in_ (Submission.id s) ids) L) rs)).
Proof.
  unfold match_rows.
  induction L as [|s t IH]; intros Hnd.
  - simpl. rewrite sum_nil.
    induction rs as [|r rs' IHr]; simpl; [reflexivity | exact IHr].
  - inversion Hnd as [|? ? Hnotin Hnd']; subst.
    cbn [existsb].
    rewrite (sum_filter_split Result.points_delta
               (fun r => (Result.submission_id r =? Submission.id s)%nat
                         && (Submission.user_id s =? u)%nat
                         && in_ (Submission.id s) ids)).
    + rewrite <- (IH Hnd').
      assert (Hblock :
        sum (map Result.points_delta
               (filter (fun r => (Result.submission_id r =? Submission.id s)%nat
                                 && (Submission.user_id s =? u)%nat
                                 && in_ (Submission.id s) ids) rs))
        = if in_ (Submission.id s) ids
          then if (Submission.user_id s =? u)%nat
               then sum (map Result.points_delta
                           (filter (fun r => Result.submission_id r =? Submission.id s)%nat rs))
               else 0
          else 0).
      { rewrite filter_and_const.
        destruct (in_ (Submission.id s) ids); [|reflexivity].
        rewrite filter_and_const.
        destruct (Submission.user_id s =? u)%nat; reflexivity. }
      rewrite Hblock. cbn [filter].
      destruct (in_ (Submission.id s) ids).
      * cbn [flat_map]. rewrite filter_app, map_app, sum_app, block_sum. reflexivity.
      * lra.
    + intros r _ Hp.
      apply andb_true_iff in Hp as [Hp _]. apply andb_true_iff in Hp as [Hp _].
      apply Nat.eqb_eq in Hp.
      destruct (existsb _ t) eqn:E; [|reflexivity]. exfalso.
      apply existsb_exists in E as (s' & Hs' & Hc).
      apply andb_true_iff in Hc as [Hc _]. apply andb_true_iff in Hc as [Hc _].
      apply Nat.eqb_eq in Hc. apply Hnotin.
      rewrite <- Hp, Hc. apply in_map. assumption.
Qed.

Lemma match_rows_key (rs : list Result.t) (ids : list nat) (L : list Submission.t) (u : nat) :
  ~ In u (map fst (match_rows rs ids L)) ->
  sum (map snd (filter (fun row : nat * R => fst row =? u)%nat (match_rows rs ids L))) = 0.
Proof.
  intros H.
  replace (filter _ (match_rows rs ids L)) with (@nil (nat * R)); [reflexivity|].
  symmetry. induction (match_rows rs ids L) as [|row t IH]; simpl; [reflexivity|].
  destruct (Nat.eqb_spec (fst row) u) as [E|E].
  - exfalso. apply H. left. assumption.
  - apply IH. intros Hin. apply H. right. assumption.
Qed.

Lemma owner_In (db : Database) (i : nat) (s : Submission.t) :
  owner db i = Some s -> In s (submissions db) /\ Submission.id s = i.
Proof.
  unfold owner. intros H. apply find_some in H as [Hin E].
  apply Nat.eqb_eq in E. auto.
Qed.

Lemma owner_unique (db : Database) (s : Submission.t) :
  NoDup (map Submission.id (submissions db)) ->
  In s (submissions db) -> owner db (Submission.id s) = Some s.
Proof.
  unfold owner. induction (submissions db) as [|s' t IH]; intros Hnd Hin; [contradiction|].
  inversion Hnd as [|? ? Hnotin Hnd']; subst. simpl.
  destruct (Nat.eqb_spec (Submission.id s') (Submission.id s)) as [E|E].
  - destruct Hin as [->|Hin]; [reflexivity|].
    exfalso. apply Hnotin. rewrite E. apply in_map. assumption.
  - destruct Hin as [->|Hin]; [congruence | auto].
Qed.

Lemma elo_rows_In (db : Database) (ids : list nat) (i : nat) (v : R) :
  In (i, v) (Recorder.elo_rows db ids)
  <-> exists s, In s (submissions db) /\ Submission.id s = i /\ in_ i ids = true
                /\ In (Submission.user_id s, v) (Recorder.elo_subquery db ids).
Proof.
  unfold Recorder.elo_rows. rewrite in_flat_map. split.
  - intros (s & Hs & Hrow). apply filter_In in Hs as [Hs Hin].
    apply in_map_iff in Hrow as ([u v'] & E & Hrow). injection E as <- <-.
    apply filter_In in Hrow as [Hrow Hu]. apply Nat.eqb_eq in Hu. simpl in Hu. subst u.
    exists s. auto.
  - intros (s & Hs & <- & Hin & Hrow). exists s. split.
    + apply filter_In. auto.
    + apply in_map_iff. exists (Submission.user_id s, v). split; [reflexivity|].
      apply filter_In. split; [assumption|]. simpl. apply Nat.eqb_refl.
Qed.

Lemma elo_subquery_In (db : Database) (ids : list nat) (u : nat) (v : R) :
  NoDup (map Submission.id (submissions db)) ->
  In (u, v) (Recorder.elo_subquery db ids) -> v = match_points db ids u.
Proof.
  intros Hnd H. unfold Recorder.elo_subquery in H.
  apply group_by_sum_In in H as [_ ->].
  apply (rows_sum (results db) ids u (submissions db) Hnd).
Qed.

(** The rating query in closed form *)
Lemma get_elos_closed_form (init : R) (db : Database) (ids : list nat) :
  NoDup (map Submission.id (submissions db)) ->
  Recorder._get_elos init db ids
  = map (fun i => match owner db i with
                  | Some s => match_points db ids (Submission.user_id s)
                  | None => 0
                  end + init) ids.
Proof.
  intros Hnd. unfold Recorder._get_elos.
  apply map_ext_in. intros i Hi. f_equal.
  assert (Hin : in_ i ids = true).
  { unfold in_. apply existsb_exists. exists i. split; [assumption | apply Nat.eqb_refl]. }
  destruct (dict_of (Recorder.elo_rows db ids) i) as [v|] eqn:E.
  - apply dict_of_Some in E. apply elo_rows_In in E as (s & Hs & Hid & _ & Hrow).
    subst i. rewrite (owner_unique db s Hnd Hs).
    apply (elo_subquery_In db ids _ _ Hnd Hrow).
  - destruct (owner db i) as [s|] eqn:Eo; [|reflexivity].
    apply owner_In in Eo as [Hs Hid].
    destruct (in_dec Nat.eq_dec (Submission.user_id s)
                (map fst (match_rows (results db) ids (submissions db)))) as [Hu|Hu].
    + exfalso.
      apply (dict_of_None _ _ (match_points db ids (Submission.user_id s)) E).
      apply elo_rows_In. exists s. repeat split; try assumption.
      unfold Recorder.elo_subquery. apply group_by_sum_In. split; [exact Hu|].
      symmetry. apply (rows_sum (results db) ids _ (submissions db) Hnd).
    + unfold match_points, owned_in_match.
      rewrite <- (rows_sum (results db) ids _ (submissions db) Hnd).
      symmetry. apply match_rows_key. assumption.
Qed.

Lemma db0_ids_unique : NoDup (map Submission.id (submissions db0)).
Proof. cbn. repeat constructor; cbn; intuition discriminate. Qed.

Lemma db1_ids_unique : NoDup (map Submission.id (submissions db1)).
Proof. cbn. repeat constructor; cbn; intuition discriminate. Qed.

(** C4: the query misses the total of the participant.  In [db0]
    participant 7 won 25 points with submission 1 and then submitted 2; its
    rating is 1025.  Before a match of submissions 2 and 3 the query fetches
    the initial 1000 for submission 2: the sum is grouped by participant and
    joined back on the participant, but it runs over the submissions of the
    match only.  When submissions 1 and 2 are in the same match the same
    query fetches 1025 for both. *)
Theorem fetched_rating_misses_other_submissions :
  rating 1000 db0 7 = 1025
  /\ Recorder._get_elos 1000 db0 [2%nat; 3%nat] = [1000; 975]
  /\ Recorder._get_elos 1000 db0 [1%nat; 2%nat] = [1025; 1025]
  /\ Recorder._get_elos 1000 db0 [2%nat; 3%nat]
     <> map (fun i => match owner db0 i with
                      | Some s => rating 1000 db0 (Submission.user_id s)
                      | None => 1000
                      end) [2%nat; 3%nat].
Proof.
  split; [cbv - [Rplus IZR]; lra|].
  split; [cbv - [Rplus IZR]; repeat (f_equal; try lra)|].
  split; [cbv - [Rplus IZR]; repeat (f_equal; try lra)|].
  cbv - [Rplus IZR]. intros H. injection H as H _. lra.
Qed.

(** What the query computes: with unique submission ids, the rating fetched
    for an entrant of the match is the sum of the deltas of the results of
    those submissions of its owner that take part in the match, plus the
    initial score. *)
Lemma fetched_rating_sums_match_submissions
    (init : R) (db : Database) (ids : list nat) (n : nat) (s : Submission.t) :
  NoDup (map Submission.id (submissions db)) ->
  In s (submissions db) ->
  nth_error ids n = Some (Submission.id s) ->
  nth_error (Recorder._get_elos init db ids) n
  = Some (match_points db ids (Submission.user_id s) + init).
Proof.
  intros Hnd Hs Hn.
  rewrite (get_elos_closed_form init db ids Hnd).
  rewrite nth_error_map, Hn. cbn [option_map].
  rewrite (owner_unique db s Hnd Hs). reflexivity.
Qed.

(** ** Recording a match *)

Lemma new_results_zero (m : nat) (ids : list nat) (srs : list SubmissionResult.t) (n : nat) :
  Forall (fun r => Result.points_delta r = 0)
         (Recorder.new_results m ids srs (repeat 0 n)).
Proof.
  unfold Recorder.new_results. apply Forall_forall. intros r Hr.
  apply in_map_iff in Hr as ([[i sr] d] & <- & Hin). simpl.
  apply in_combine_r in Hin. apply repeat_spec in Hin. assumption.
Qed.

Section ZeroRows.

Variables (db db' : Database) (new : list Result.t).
Hypothesis same_submissions : submissions db' = submissions db.
Hypothesis appended : results db' = results db ++ new.
Hypothesis zero : Forall (fun r => Result.points_delta r = 0) new.

Lemma zero_rows_sum (p : Result.t -> bool) :
  sum (map Result.points_delta (filter p new)) = 0.
Proof.
  apply sum_zeros. apply Forall_forall. intros x Hx.
  apply in_map_iff in Hx as (r & <- & Hr). apply filter_In in Hr as [Hr _].
  rewrite Forall_forall in zero. auto.
Qed.

Lemma match_points_stable (ids : list nat) (u : nat) :
  match_points db' ids u = match_points db ids u.
Proof.
  unfold match_points, owned_in_match.
  rewrite same_submissions, appended, filter_app, map_app, sum_app, zero_rows_sum. lra.
Qed.

Lemma rating_stable (init : R) (u : nat) : rating init db' u = rating init db u.
Proof.
  unfold rating, owned_by.
  rewrite same_submissions, appended, filter_app, map_app, sum_app, zero_rows_sum. lra.
Qed.

Lemma get_elos_stable (init : R) (ids : list nat) :
  NoDup (map Submission.id (submissions db)) ->
  Recorder._get_elos init db' ids = Recorder._get_elos init db ids.
Proof.
  intros Hnd.
  rewrite !get_elos_closed_form by (rewrite ?same_submissions; assumption).
  apply map_ext. intros i. unfold owner. rewrite same_submissions.
  destruct (find _ (submissions db)); [|reflexivity].
  rewrite match_points_stable. reflexivity.
Qed.

End ZeroRows.

Lemma map_combine_fst {A B : Type} (a : list A) (b : list B) :
  length a = length b -> map fst (combine a b) = a.
Proof.
  revert b. induction a as [|x a IH]; intros [|y b] H; try discriminate; simpl.
  - reflexivity.
  - f_equal. apply IH. simpl in H. lia.
Qed.

Lemma map_combine_snd {A B : Type} (a : list A) (b : list B) :
  length a = length b -> map snd (combine a b) = b.
Proof.
  revert b. induction a as [|x a IH]; intros [|y b] H; try discriminate; simpl.
  - reflexivity.
  - f_equal. apply IH. simpl in H. lia.
Qed.

Section NewResults.

Variables (m : nat) (ids : list nat) (srs : list SubmissionResult.t) (deltas : list R).
Hypothesis len_srs : length ids = length srs.
Hypothesis len_deltas : length deltas = length ids.

Let new := Recorder.new_results m ids srs deltas.

Lemma new_results_length : length new = length ids.
Proof.
  unfold new, Recorder.new_results.
  rewrite length_map, !length_combine. lia.
Qed.

Lemma new_results_ids : map Result.submission_id new = ids.
Proof.
  unfold new, Recorder.new_results. rewrite map_map.
  rewrite <- (map_combine_fst ids srs len_srs) at 2.
  rewrite <- (map_combine_fst (combine ids srs) deltas) at 2
    by (rewrite length_combine; lia).
  rewrite map_map. apply map_ext. intros [[i sr] d]. reflexivity.
Qed.

Lemma new_results_deltas : map Result.points_delta new = deltas.
Proof.
  unfold new, Recorder.new_results. rewrite map_map.
  rewrite <- (map_combine_snd (combine ids srs) deltas) at 2
    by (rewrite length_combine; lia).
  apply map_ext. intros [[i sr] d]. reflexivity.
Qed.

Lemma new_results_slots :
  map Result.healthy new = map SubmissionResult.healthy srs
  /\ map Result.outcome new = map SubmissionResult.outcome srs.
Proof.
  unfold new, Recorder.new_results. rewrite !map_map.
  assert (E : srs = map snd (map fst (combine (combine ids srs) deltas))).
  { rewrite map_combine_fst by (rewrite length_combine; lia).
    rewrite map_combine_snd by assumption. reflexivity. }
  rewrite E at 2 4. rewrite !map_map.
  split; apply map_ext; intros [[i sr] d]; reflexivity.
Qed.

End NewResults.

Lemma new_results_match (m : nat) (ids : list nat) (srs : list SubmissionResult.t)
    (deltas : list R) (r : Result.t) :
  In r (Recorder.new_results m ids srs deltas) ->
  Result.match_id r = m /\ In (Result.submission_id r) ids.
Proof.
  unfold Recorder.new_results. intros H.
  apply in_map_iff in H as ([[i sr] d] & <- & Hin). simpl. split; [reflexivity|].
  apply in_combine_l in Hin. apply in_combine_l in Hin. assumption.
Qed.

Lemma save_result_Ok (k init : R) (now : nat) (db : Database) (subs : list Submission.t)
    (payload : Payload) (update_scores : bool) (db' : Database) :
  Recorder._save_result k init now db subs payload update_scores = Ok db' ->
  let ids := map Submission.id subs in
  let srs := submission_results payload in
  length ids = length srs
  /\ exists deltas,
       (if update_scores
        then Rating._calculate_delta_scores k (map SubmissionResult.outcome srs)
               (Recorder._get_elos init db ids)
        else Ok (repeat 0 (length ids))) = Ok deltas
       /\ submissions db' = submissions db
       /\ results db' = results db ++ Recorder.new_results (length (matches db)) ids srs deltas.
Proof.
  unfold Recorder._save_result. cbn zeta.
  destruct (Nat.eqb_spec (length (map Submission.id subs))
                         (length (submission_results payload))) as [E|E];
    cbn [negb]; [|discriminate].
  intros H. apply bind_Ok in H as (deltas & Hd & H). injection H as <-.
  split; [assumption|]. exists deltas. auto.
Qed.

Lemma save_result_no_update (k init : R) (now : nat) (db : Database)
    (subs : list Submission.t) (payload : Payload) :
  length subs = length (submission_results payload) ->
  Recorder._save_result k init now db subs payload false
  = Ok {| submissions := submissions db;
          results := results db
                     ++ Recorder.new_results (length (matches db)) (map Submission.id subs)
                          (submission_results payload) (repeat 0 (length subs));
          matches := matches db
                     ++ [ {| Match.match_date := now;
                             Match.recording := recording payload |} ] |}.
Proof.
  intros E. unfold Recorder._save_result.
  rewrite length_map, E, Nat.eqb_refl. reflexivity.
Qed.

Lemma crashing_runner_unhealthy (options gamemode : String.string)
    (hashes : list String.string) (payload : Payload) :
  crashing_runner options gamemode hashes = Ok payload ->
  existsb SubmissionResult.healthy (submission_results payload) = false.
Proof.
  unfold crashing_runner. intros H. injection H as <-. cbn [submission_results].
  destruct hashes as [|h rest]; [reflexivity|]. cbn.
  induction rest as [|h' t IH]; [reflexivity | exact IH].
Qed.

Lemma existsb_map {A : Type} (f : A -> bool) (l : list A) :
  existsb f l = existsb (fun b => b) (map f l).
Proof. induction l as [|x l IH]; simpl; [reflexivity | rewrite IH; reflexivity]. Qed.

(** C5: a typical match that is recorded writes one row per entrant, with
    the id of its submission and the outcome and health flag of its slot,
    and updates ratings exactly when some slot of the payload is healthy.
    With a healthy slot the engine is run on the outcomes of the payload and
    the fetched ratings, and the deltas recorded in the rows are, slot by
    slot, the deltas the engine returns.  With no healthy slot every recorded
    delta is 0, the recorded store is the same whatever the turbulence and
    the initial score (the engine has no part in it), and no rating changes:
    neither the one the query fetches nor the total of a participant. *)
Theorem typical_match_updates_iff_healthy
    (k init : R)
    (runner : String.string -> String.string -> list String.string -> raises Payload)
    (now : nat) (i_submissions : list nat) (gamemode : Gamemode.t)
    (options : String.string) (db db' : Database) :
  NoDup (map Submission.id (submissions db)) ->
  Recorder._run_typical_match k init runner now i_submissions gamemode options db
  = Ok (true, db') ->
  exists subs payload new,
    let ids := map Submission.id subs in
    let srs := submission_results payload in
    Recorder._run_match runner gamemode options subs = Ok payload
    /\ submissions db' = submissions db
    /\ results db' = results db ++ new
    /\ map Result.submission_id new = ids
    /\ map Result.outcome new = map SubmissionResult.outcome srs
    /\ map Result.healthy new = map SubmissionResult.healthy srs
    /\ (existsb SubmissionResult.healthy srs = true ->
        exists deltas,
          Rating._calculate_delta_scores k (map SubmissionResult.outcome srs)
            (Recorder._get_elos init db ids) = Ok deltas
          /\ map Result.points_delta new = deltas
          /\ new = Recorder.new_results (length (matches db)) ids srs deltas)
    /\ (existsb SubmissionResult.healthy srs = false ->
        map Result.points_delta new = repeat 0 (length ids)
        /\ new = Recorder.new_results (length (matches db)) ids srs (repeat 0 (length ids))
        /\ Forall (fun r => Result.points_delta r = 0) new
        /\ (forall k' init',
              Recorder._run_typical_match k' init' runner now i_submissions gamemode
                options db = Ok (true, db'))
        /\ (forall ids', Recorder._get_elos init db' ids' = Recorder._get_elos init db ids')
        /\ (forall user, rating init db' user = rating init db user)).
Proof.
  intros Hnd H. unfold Recorder._run_typical_match in H. cbn zeta in H.
  destruct ((0 <? Gamemode.player_count gamemode)%nat
            && (length (Recorder._get_all_latest_healthy_submissions db)
                <? Gamemode.player_count gamemode)%nat) eqn:Eskip; [discriminate|].
  apply bind_Ok in H as (subs & Hsubs & H).
  apply bind_Ok in H as (payload & Hrun & H).
  apply bind_Ok in H as (db'' & Hsave & H).
  injection H as ->.
  pose proof (save_result_Ok _ _ _ _ _ _ _ _ Hsave) as (Hlen & deltas & Hd & Hs & Hr).
  cbn zeta in Hlen, Hd, Hr.
  assert (Hdl : length deltas = length (map Submission.id subs)).
  { destruct (existsb SubmissionResult.healthy (submission_results payload)).
    - apply returned_deltas_zero_sum in Hd as [Hdl _]. rewrite length_map in Hdl. lia.
    - injection Hd as <-. apply repeat_length. }
  exists subs, payload,
    (Recorder.new_results (length (matches db)) (map Submission.id subs)
       (submission_results payload) deltas).
  cbn zeta.
  split; [assumption|]. split; [assumption|]. split; [assumption|].
  split; [apply new_results_ids; assumption|].
  split; [apply new_results_slots; assumption|].
  split; [apply new_results_slots; assumption|].
  split.
  - intros Eh. rewrite Eh in Hd. exists deltas.
    split; [assumption|]. split; [apply new_results_deltas; assumption | reflexivity].
  - intros Eh. rewrite Eh in Hd, Hsave. injection Hd as <-.
    pose proof (new_results_zero (length (matches db)) (map Submission.id subs)
                  (submission_results payload) (length (map Submission.id subs))) as Hz.
    split; [apply new_results_deltas; assumption|].
    split; [reflexivity|]. split; [assumption|]. split; [|split].
    + intros k' init'. unfold Recorder._run_typical_match. cbn zeta.
      rewrite Eskip, Hsubs. cbn [bind]. rewrite Hrun. cbn [bind]. rewrite Eh.
      rewrite length_map in Hlen.
      rewrite save_result_no_update in Hsave |- * by assumption.
      injection Hsave as <-. reflexivity.
    + intros ids'. apply (get_elos_stable db db' _ Hs Hr Hz init ids' Hnd).
    + intros user. apply (rating_stable db db' _ Hs Hr Hz).
Qed.

(** The match of submissions 2 and 3 of [db0] when the first wins and both
    are healthy: the ratings fetched are 1000 and 975. *)
Lemma winning_match_recorded :
  exists db',
    Recorder._run_typical_match 32 1000 winning_runner 30 [0%nat; 1%nat] two_players
      String.EmptyString db0 = Ok (true, db')
    /\ results db'
       = results db0
         ++ [res 2 2 Win true
               (Rating._calculate_delta_scores_pair 32 (0 + 0 + 0 + 1000) (0 + -25 + 1000) 1);
             res 2 3 Loss true
               (- Rating._calculate_delta_scores_pair 32 (0 + 0 + 0 + 1000) (0 + -25 + 1000) 1)].
Proof.
  assert (Hsave : exists db',
             Recorder._save_result 32 1000 30 db0 [sub 2 7 true; sub 3 8 true]
               {| recording := String.EmptyString;
                  submission_results := [played Win; played Loss] |} true = Ok db'
             /\ results db'
                = results db0
                  ++ [res 2 2 Win true
                        (Rating._calculate_delta_scores_pair 32
                           (0 + 0 + 0 + 1000) (0 + -25 + 1000) 1);
                      res 2 3 Loss true
                        (- Rating._calculate_delta_scores_pair 32
                             (0 + 0 + 0 + 1000) (0 + -25 + 1000) 1)]).
  { unfold Recorder._save_result.
    cbn [map length Nat.eqb negb submission_results SubmissionResult.outcome played
         Submission.id sub].
    change (Recorder._get_elos 1000 db0 [2%nat; 3%nat])
      with [0 + 0 + 0 + 1000; 0 + -25 + 1000].
    rewrite (two_player_equivalence 32 _ _ Win Loss) by discriminate.
    cbn [bind Outcome_eqb]. eexists. split; reflexivity. }
  destruct Hsave as (db' & Hsave & Hres).
  exists db'. split; [|exact Hres].
  change (Recorder._run_typical_match 32 1000 winning_runner 30 [0%nat; 1%nat] two_players
            String.EmptyString db0)
    with (db'' <- Recorder._save_result 32 1000 30 db0 [sub 2 7 true; sub 3 8 true]
                    {| recording := String.EmptyString;
                       submission_results := [played Win; played Loss] |} true ;;
          Ok (true, db'')).
  rewrite Hsave. reflexivity.
Qed.

Lemma typical_match_updates_iff_healthy_witness :
  (exists db',
      Recorder._run_typical_match 32 1000 crashing_runner 30 [0%nat; 1%nat] two_players
        String.EmptyString db0 = Ok (true, db')
      /\ Forall (fun r => Result.points_delta r = 0)
                (skipn (length (results db0)) (results db'))
      /\ forall user, rating 1000 db' user = rating 1000 db0 user)
  /\ (exists db' deltas,
        Recorder._run_typical_match 32 1000 winning_runner 30 [0%nat; 1%nat] two_players
          String.EmptyString db0 = Ok (true, db')
        /\ Rating._calculate_delta_scores 32 [Win; Loss]
             (Recorder._get_elos 1000 db0 [2%nat; 3%nat]) = Ok deltas
        /\ map Result.points_delta (skipn (length (results db0)) (results db')) = deltas).
Proof.
  split.
  - eexists. split; [reflexivity|].
    destruct (typical_match_updates_iff_healthy 32 1000 crashing_runner 30
                [0%nat; 1%nat] two_players String.EmptyString db0 _
                db0_ids_unique eq_refl)
      as (subs & payload & new & Hrun & _ & _ & _ & _ & _ & _ & Hun).
    cbn zeta in Hun.
    destruct (Hun (crashing_runner_unhealthy String.EmptyString
                     (Gamemode.name two_players) (map Submission.files_hash subs) payload Hrun))
      as (_ & _ & _ & _ & _ & Hr).
    split; [|exact Hr].
    cbn. repeat constructor.
  - destruct winning_match_recorded as (db' & Hrun & Hres).
    destruct (typical_match_updates_iff_healthy 32 1000 winning_runner 30
                [0%nat; 1%nat] two_players String.EmptyString db0 db'
                db0_ids_unique Hrun)
      as (subs & payload & new & _ & _ & Hnew & Hids & Hout & Hh & Hhealthy & _).
    cbn zeta in Hids, Hout, Hh, Hhealthy.
    rewrite Hres in Hnew. apply app_inv_head in Hnew. subst new.
    cbn [map Result.submission_id Result.outcome Result.healthy res] in Hids, Hout, Hh.
    rewrite <- Hids, <- Hout in Hhealthy.
    destruct Hhealthy as (deltas & Hd & Hrows & _).
    { rewrite existsb_map, <- Hh. reflexivity. }
    exists db', deltas. split; [exact Hrun|]. split; [exact Hd|].
    rewrite Hres, skipn_app, skipn_all, Nat.sub_diag. exact Hrows.
Defined.

(** C8: recording with rating updates disabled always succeeds when the
    payload has one result per submission, writes delta 0 in every row, gives
    the same store whatever the turbulence and the initial score (the engine
    has no part in it), and changes no rating, neither the one the query
    fetches nor the total of a participant; a self-test match that is
    recorded has one untested submission in every slot and is recorded in
    this way. *)
Theorem no_update_records_zero_deltas :
  (forall (k init : R) (now : nat) (db : Database) (subs : list Submission.t)
          (payload : Payload),
      NoDup (map Submission.id (submissions db)) ->
      length subs = length (submission_results payload) ->
      exists db',
        (forall k' init', Recorder._save_result k' init' now db subs payload false = Ok db')
        /\ submissions db' = submissions db
        /\ results db'
           = results db
             ++ Recorder.new_results (length (matches db)) (map Submission.id subs)
                  (submission_results payload) (repeat 0 (length subs))
        /\ Forall (fun r => Result.points_delta r = 0)
                  (Recorder.new_results (length (matches db)) (map Submission.id subs)
                     (submission_results payload) (repeat 0 (length subs)))
        /\ (forall ids', Recorder._get_elos init db' ids' = Recorder._get_elos init db ids')
        /\ (forall user, rating init db' user = rating init db user))
  /\ (forall (k init : R)
             (runner : String.string -> String.string -> list String.string -> raises Payload)
             (now choice : nat) (gamemode : Gamemode.t) (options : String.string)
             (db db' : Database),
      NoDup (map Submission.id (submissions db)) ->
      Recorder._run_test_match k init runner now choice gamemode options db
      = Ok (true, db') ->
      exists subs payload,
        ((0 < Gamemode.player_count gamemode)%nat ->
         exists s, In s (Recorder._get_all_untested_submissions db)
                   /\ subs = repeat s (Gamemode.player_count gamemode))
        /\ Recorder._run_match runner gamemode options subs = Ok payload
        /\ (forall k' init',
              Recorder._run_test_match k' init' runner now choice gamemode options db
              = Ok (true, db'))
        /\ submissions db' = submissions db
        /\ results db'
           = results db
             ++ Recorder.new_results (length (matches db)) (map Submission.id subs)
                  (submission_results payload) (repeat 0 (length subs))
        /\ Forall (fun r => Result.points_delta r = 0)
                  (Recorder.new_results (length (matches db)) (map Submission.id subs)
                     (submission_results payload) (repeat 0 (length subs)))
        /\ (forall ids', Recorder._get_elos init db' ids' = Recorder._get_elos init db ids')
        /\ (forall user, rating init db' user = rating init db user)).
Proof.
  split.
  - intros k init now db subs payload Hnd Hlen.
    eexists. split; [intros k' init'; apply save_result_no_update; assumption|].
    cbn [submissions results].
    pose proof (new_results_zero (length (matches db)) (map Submission.id subs)
                  (submission_results payload) (length subs)) as Hz.
    split; [reflexivity|]. split; [reflexivity|]. split; [assumption|]. split.
    + intros ids'. eapply get_elos_stable; [| |exact Hz|exact Hnd]; reflexivity.
    + intros user. eapply rating_stable; [| |exact Hz]; reflexivity.
  - intros k init runner now choice gamemode options db db' Hnd H.
    unfold Recorder._run_test_match in H. cbn zeta in H.
    destruct ((0 <? Gamemode.player_count gamemode)%nat
              && (length (Recorder._get_all_untested_submissions db) =? 0)%nat) eqn:Eskip;
      [discriminate|].
    apply bind_Ok in H as (subs & Hsubs & H).
    apply bind_Ok in H as (payload & Hrun & H).
    apply bind_Ok in H as (db'' & Hsave & H).
    injection H as ->.
    pose proof (save_result_Ok _ _ _ _ _ _ _ _ Hsave) as (Hlen & _).
    cbn zeta in Hlen. rewrite length_map in Hlen.
    rewrite save_result_no_update in Hsave by assumption. injection Hsave as <-.
    cbn [submissions results].
    pose proof (new_results_zero (length (matches db)) (map Submission.id subs)
                  (submission_results payload) (length subs)) as Hz.
    exists subs, payload. split; [|split; [assumption|split]].
    + intros Hpc. apply Nat.ltb_lt in Hpc. rewrite Hpc in Hsubs.
      apply bind_Ok in Hsubs as (s & Hs & Hsubs). injection Hsubs as <-.
      exists s. split; [|reflexivity].
      apply getitem_Ok in Hs. eapply nth_error_In; eassumption.
    + intros k' init'. unfold Recorder._run_test_match. cbn zeta.
      rewrite Eskip, Hsubs. cbn [bind]. rewrite Hrun. cbn [bind].
      rewrite save_result_no_update by assumption. reflexivity.
    + split; [reflexivity|]. split; [reflexivity|]. split; [assumption|]. split.
      * intros ids'. eapply get_elos_stable; [| |exact Hz|exact Hnd]; reflexivity.
      * intros user. eapply rating_stable; [| |exact Hz]; reflexivity.
Qed.

Lemma no_update_records_zero_deltas_witness :
  (exists db',
      Recorder._save_result 32 1000 30 db1 [sub 4 9 true; sub 4 9 true]
        {| recording := String.EmptyString;
           submission_results := [crash Draw; crash Loss] |} false = Ok db'
      /\ forall user, rating 1000 db' user = rating 1000 db1 user)
  /\ exists db' s,
       Recorder._run_test_match 32 1000 crashing_runner 30 0 two_players
         String.EmptyString db1 = Ok (true, db')
       /\ In s (Recorder._get_all_untested_submissions db1)
       /\ forall user, rating 1000 db' user = rating 1000 db1 user.
Proof.
  destruct no_update_records_zero_deltas as [Hsave Htest].
  split.
  - destruct (Hsave 32 1000 30%nat db1 [sub 4 9 true; sub 4 9 true]
                {| recording := String.EmptyString;
                   submission_results := [crash Draw; crash Loss] |}
                db1_ids_unique eq_refl) as (db' & Hok & _ & _ & _ & _ & Hr).
    exists db'. split; [apply Hok | exact Hr].
  - eexists.
    destruct (Htest 32 1000 crashing_runner 30%nat 0%nat two_players String.EmptyString
                db1 _ db1_ids_unique eq_refl)
      as (subs & payload & Hsubs & _ & _ & _ & _ & _ & _ & Hr).
    destruct (Hsubs (Nat.lt_0_succ 1)) as (s & Hin & _).
    exists s. split; [reflexivity|]. split; [exact Hin | exact Hr].
Defined.

(** ** Pacing *)

(** C6: the penalty drawn after a failed iteration is not slept.  The time
    slept never depends on the success flag nor on the penalty; after a
    failed iteration of 1 second with target 10, penalty 5 and no jitter the
    worker sleeps 9 seconds, where the spec has 9 + 5 = 14. *)
Theorem penalty_is_not_slept :
  (forall (seconds_per_run : Z) (success : bool) (d : Recorder.Draws),
      Recorder.sleep_time seconds_per_run success d
      = Rmax 0 (IZR seconds_per_run - Recorder.diff d
                + 5 / 100 * IZR seconds_per_run * (Recorder.random d - 5 / 10)))
  /\ Recorder.sleep_time 10 false draws0 = 9
  /\ Rmax 0 (10 - Recorder.diff draws0) + IZR (Recorder.randint draws0)
     + 5 / 100 * 10 * (Recorder.random draws0 - 5 / 10) = 14.
Proof.
  split; [reflexivity|].
  unfold Recorder.sleep_time, draws0. cbn [Recorder.diff Recorder.randint Recorder.random].
  split.
  - unfold Rmax. destruct (Rle_dec _ _); lra.
  - unfold Rmax. destruct (Rle_dec _ _); lra.
Qed.

(** * Further properties *)

(** ** More on the base pairwise formula *)

(** X1: the base formula is zero-sum: what the first player gets with
    win-weight [w], the second gets negated with win-weight [1 - w]. *)
Theorem pair_formula_zero_sum (k a b w : R) :
  Rating._calculate_delta_scores_pair k a b w
  + Rating._calculate_delta_scores_pair k b a (1 - w) = 0.
Proof. rewrite pair_opposite. lra. Qed.

(** X2: with a turbulence [k] that is not negative a win gains between 0 and
    [k], a loss loses between 0 and [k], and a draw moves [k / 2] at most,
    whatever the two ratings. *)
Theorem pair_formula_bounds (k a b : R) :
  0 <= k ->
  0 <= Rating._calculate_delta_scores_pair k a b 1 <= k
  /\ - k <= Rating._calculate_delta_scores_pair k a b 0 <= 0
  /\ - (k / 2) <= Rating._calculate_delta_scores_pair k a b (1 / 2) <= k / 2.
Proof.
  intros Hk. unfold Rating._calculate_delta_scores_pair.
  pose proof (expected_bounds a b) as [H0 H1].
  set (E := Rpower 10 (a / 400) / (Rpower 10 (a / 400) + Rpower 10 (b / 400))) in *.
  repeat split; nra.
Qed.

Lemma pair_formula_bounds_witness :
  0 <= Rating._calculate_delta_scores_pair 32 1000 1400 1 <= 32.
Proof.
  destruct (pair_formula_bounds 32 1000 1400) as (H & _); [lra | exact H].
Defined.

(** X3: the base formula depends on the two ratings through their
    difference only: adding the same amount to both changes nothing. *)
Theorem pair_formula_shift (k a b c w : R) :
  Rating._calculate_delta_scores_pair k (a + c) (b + c) w
  = Rating._calculate_delta_scores_pair k a b w.
Proof.
  unfold Rating._calculate_delta_scores_pair.
  replace ((a + c) / 400) with (a / 400 + c / 400) by field.
  replace ((b + c) / 400) with (b / 400 + c / 400) by field.
  rewrite !Rpower_plus.
  pose proof (Rpower10_pos (a / 400)). pose proof (Rpower10_pos (b / 400)).
  pose proof (Rpower10_pos (c / 400)).
  field. split; nra.
Qed.

(** ** The player loop in general *)

Lemma nth_error_combine_Some {A B : Type} (l : list A) (l' : list B) (i : nat) (a : A) (b : B) :
  nth_error l i = Some a -> nth_error l' i = Some b ->
  nth_error (combine l l') i = Some (a, b).
Proof.
  revert l l'. induction i as [|i IH]; intros [|x l] [|y l']; simpl; try discriminate.
  - congruence.
  - apply IH.
Qed.

Lemma member_In (players : list (Outcome * R)) (o : Outcome) (e : R) :
  In (o, e) players -> In e (members o players).
Proof.
  intros Hin. unfold members. apply in_map_iff. exists (o, e). split; [reflexivity|].
  apply filter_In. split; [assumption|]. destruct o; reflexivity.
Qed.

Lemma Outcome_eqb_eq (a b : Outcome) : Outcome_eqb a b = true -> a = b.
Proof. destruct a, b; simpl; congruence. Qed.

Lemma is_single_team_Some (g : Rating.groups) (o : Outcome) :
  Rating.is_single_team g o = true -> Rating.single_team_outcome g = Some o.
Proof.
  unfold Rating.is_single_team. destruct (Rating.single_team_outcome g) as [o'|]; [|discriminate].
  intros H. apply Outcome_eqb_eq in H. congruence.
Qed.

(** In a single team no pairing of groups is played. *)
Lemma single_team_no_inter (k : R) (g : Rating.groups) (o : Outcome) :
  Rating.single_team_outcome g = Some o ->
  Rating.win_loss k g = 0 /\ Rating.win_draw k g = 0 /\ Rating.loss_draw k g = 0.
Proof.
  unfold Rating.single_team_outcome, Rating.win_loss, Rating.win_draw, Rating.loss_draw.
  destruct (Rating.counts g Win) as [|w]; destruct (Rating.counts g Loss) as [|l];
    destruct (Rating.counts g Draw) as [|d]; cbn; rewrite ?andb_false_r; cbn;
    intros H; try discriminate; auto.
Qed.

(** Two groups with members leave no single team. *)
Lemma two_groups_no_single (g : Rating.groups) (o1 o2 : Outcome) :
  o1 <> o2 -> Rating.counts g o1 <> 0%nat -> Rating.counts g o2 <> 0%nat ->
  Rating.single_team_outcome g = None.
Proof.
  unfold Rating.single_team_outcome. intros Hne H1 H2.
  destruct o1, o2; try congruence;
    destruct (Rating.counts g Win) as [|w]; destruct (Rating.counts g Loss) as [|l];
    destruct (Rating.counts g Draw) as [|d]; try congruence; cbn;
    rewrite ?andb_false_r; reflexivity.
Qed.

Section Loop.

Variables (k : R) (outcomes : list Outcome) (elos : list R).

Let g := Rating.group_players outcomes elos.
Let players := combine outcomes elos.

(** The body of the loop never raises on a player of the match. *)
Lemma player_delta_total (o : Outcome) (e : R) :
  In (o, e) players -> exists d, Rating.player_delta k g (o, e) = Ok d.
Proof.
  intros Hin. unfold Rating.player_delta.
  rewrite (inter_group_Ok k g o (member_counted outcomes elos o e Hin)). cbn [bind].
  destruct (Rating.is_single_team g o) eqn:Es; [|eauto].
  apply is_single_team_Some in Es.
  unfold Rating.intra_group, Rating.single_team_elos. rewrite Es.
  unfold g at 1 2 3. rewrite group_elos_members. fold players.
  assert (HinS : In e (sorted (members o players))).
  { eapply Permutation_in; [apply sorted_perm | apply member_In; exact Hin]. }
  destruct (index_In _ _ HinS) as (p & Hp). rewrite Hp. cbn [bind].
  pose proof (index_lt _ _ _ Hp) as Hlt.
  unfold getitem.
  rewrite (nth_error_nth' (sorted (members o players)) e) by lia. cbn [bind].
  destruct (_ =? _)%nat; eauto.
Qed.

Lemma player_deltas_total :
  exists deltas, Rating.player_deltas k g players = Ok deltas.
Proof.
  assert (H : forall l, incl l players ->
                        exists deltas, Rating.player_deltas k g l = Ok deltas).
  { induction l as [|[o e] rest IH]; intros Hincl; [eexists; reflexivity|].
    destruct (player_delta_total o e (Hincl _ (or_introl eq_refl))) as (d & Hd).
    destruct IH as (ds & Hds); [intros x Hx; apply Hincl; right; exact Hx|].
    exists (d :: ds). cbn [Rating.player_deltas]. rewrite Hd. cbn [bind].
    rewrite Hds. reflexivity. }
  apply H, incl_refl.
Qed.

(** What the loop gives a player: the inter-group portion of its group, and
    in a single team the draw formula against some rating of the team. *)
Lemma player_delta_shape (o : Outcome) (e d : R) :
  In (o, e) players -> Rating.player_delta k g (o, e) = Ok d ->
  (Rating.is_single_team g o = false
   /\ d = inter_total k g o / INR (Rating.counts g o))
  \/ (Rating.is_single_team g o = true
      /\ exists opp, d = Rating._calculate_delta_scores_pair k e opp (1 / 2)).
Proof.
  intros Hin. unfold Rating.player_delta.
  pose proof (member_counted outcomes elos o e Hin) as Hc. fold g in Hc.
  rewrite (inter_group_Ok k g o Hc). cbn [bind].
  destruct (Rating.is_single_team g o) eqn:Es.
  - intros H. right. split; [reflexivity|].
    destruct (intra_group_value _ _ _ _ _ H) as (p & opp & _ & _ & ->).
    exists opp.
    destruct (single_team_no_inter k g o (is_single_team_Some g o Es)) as (Hwl & Hwd & Hld).
    unfold inter_total. rewrite Hwl, Hwd, Hld.
    assert (INR (Rating.counts g o) <> 0) by (apply not_0_INR; assumption).
    destruct o; field; assumption.
  - intros H. injection H as <-. left. auto.
Qed.

End Loop.

(** The two-player comparison can only raise [AssertionError] once the
    deltas are as many as the outcomes. *)
Lemma two_player_check_raises (k : R) (outcomes : list Outcome) (elos deltas : list R)
    (e : exn) :
  length deltas = length outcomes -> length deltas = Nat.min (length outcomes) (length elos) ->
  Rating.two_player_check k outcomes elos deltas = Raise e -> e = AssertionError.
Proof.
  intros Hlen Hmin.
  destruct outcomes as [|o0 [|o1 [|o2 rest]]]; try discriminate.
  destruct deltas as [|d0 [|d1 [|d2 ds]]]; try discriminate.
  destruct elos as [|e0 [|e1 elos]]; try discriminate.
  cbn [Rating.two_player_check list_min list_max getitem nth_error bind].
  destruct (Outcome_eqb o0 o1 && Outcome_eqb o1 Draw); cbn [bind];
    [destruct (isclose _ _ _ _); cbn [assert bind]|];
    try (intros H; congruence);
    destruct (negb (Outcome_eqb o0 o1));
    try (intros H; congruence);
    destruct (isclose _ _ _ _); cbn [assert]; intros H; congruence.
Qed.

Lemma In_outcome_counted (outcomes : list Outcome) (elos : list R) (o : Outcome) :
  length outcomes = length elos -> In o outcomes ->
  Rating.counts (Rating.group_players outcomes elos) o <> 0%nat.
Proof.
  intros Hlen Hin. apply In_nth_error in Hin as (i & Hi).
  assert (Hlt : (i < length elos)%nat)
    by (rewrite <- Hlen; apply nth_error_Some; congruence).
  destruct (nth_error elos i) as [e|] eqn:He;
    [|apply nth_error_None in He; lia].
  apply (member_counted outcomes elos o e).
  eapply nth_error_In. apply nth_error_combine_Some; eassumption.
Qed.

Lemma pairing_bounds (k : R) (g : Rating.groups) :
  0 <= k ->
  0 <= Rating.win_loss k g <= k /\ 0 <= Rating.win_draw k g <= k
  /\ 0 <= Rating.loss_draw k g <= k.
Proof.
  intros Hk.
  assert (H : forall a b, 0 <= Rating._calculate_delta_scores_pair k a b 1 <= k).
  { intros a b. unfold Rating._calculate_delta_scores_pair.
    pose proof (expected_bounds a b) as [H0 H1]. split; nra. }
  unfold Rating.win_loss, Rating.win_draw, Rating.loss_draw.
  repeat split; destruct (_ && _); try apply H; lra.
Qed.

Lemma draw_bounds (k a b : R) :
  0 <= k -> Rabs (Rating._calculate_delta_scores_pair k a b (1 / 2)) <= k / 2.
Proof.
  intros Hk. unfold Rating._calculate_delta_scores_pair.
  pose proof (expected_bounds a b) as [H0 H1].
  apply Rabs_le. split; nra.
Qed.

Lemma members_In_elos (outcomes : list Outcome) (elos : list R) (o : Outcome) (x : R) :
  In x (members o (combine outcomes elos)) -> In x elos.
Proof.
  unfold members. intros H. apply in_map_iff in H as ([o' e'] & <- & Hin).
  apply filter_In in Hin as [Hin _]. apply in_combine_r in Hin. exact Hin.
Qed.

(** ** What the engine does on every input *)

(** In the model, whose pairwise formula is total, the engine either returns
    one delta per outcome, summing to less than 1e-6 in absolute value, or
    raises [AssertionError]. *)
Lemma engine_returns_or_asserts (k : R) (outcomes : list Outcome) (elos : list R) :
  (exists deltas,
      Rating._calculate_delta_scores k outcomes elos = Ok deltas
      /\ length deltas = length outcomes
      /\ Rabs (sum deltas) < 1 / 1000000)
  \/ Rating._calculate_delta_scores k outcomes elos = Raise AssertionError.
Proof.
  destruct (Rating._calculate_delta_scores k outcomes elos) as [deltas|e] eqn:E.
  - left. exists deltas. split; [reflexivity|].
    apply (returned_deltas_zero_sum k outcomes elos deltas E).
  - right. f_equal. revert E. unfold Rating._calculate_delta_scores.
    destruct (player_deltas_total k outcomes elos) as (ds & Hds). rewrite Hds.
    cbn [bind]. unfold assert at 1.
    destruct (Nat.eqb_spec (length ds) (length outcomes)) as [Hlen|Hlen];
      cbn [bind]; [|congruence].
    unfold assert at 1. destruct (_ && _); cbn [bind]; [|congruence].
    destruct (Rating.two_player_check k outcomes elos ds) as [[]|e'] eqn:Et;
      cbn [bind]; [discriminate|].
    intros H. injection H as <-.
    apply (two_player_check_raises k outcomes elos ds e' Hlen); [|exact Et].
    rewrite (player_deltas_length _ _ _ _ Hds). apply length_combine.
Qed.

(** X5: the lookups of the player loop succeed for every player of the
    match, whatever the lists.  The group of the player has a member, so the
    division by its size is not a division by zero; and when all the players
    are in one team, [index] finds the rating of the player in the sorted
    team, the mirror position is inside the team, and the rating found there
    is the rating of a player of the match. *)
Theorem player_loop_lookups_succeed
    (outcomes : list Outcome) (elos : list R) (o : Outcome) (e : R) :
  In (o, e) (combine outcomes elos) ->
  let g := Rating.group_players outcomes elos in
  let team := Rating.single_team_elos g in
  Rating.counts g o <> 0%nat
  /\ (Rating.is_single_team g o = true ->
      exists position_in_team opponent_elo,
        index e team = Ok position_in_team
        /\ (position_in_team < length team)%nat
        /\ getitem team (length team - position_in_team - 1) = Ok opponent_elo
        /\ In opponent_elo elos).
Proof.
  intros Hin g team.
  split; [apply (member_counted outcomes elos o e Hin)|].
  intros Es. apply is_single_team_Some in Es.
  unfold team, Rating.single_team_elos. rewrite Es.
  unfold g. rewrite group_elos_members.
  set (players := combine outcomes elos) in *.
  assert (HinS : In e (sorted (members o players))).
  { eapply Permutation_in; [apply sorted_perm | apply member_In; exact Hin]. }
  destruct (index_In _ _ HinS) as (p & Hp).
  pose proof (index_lt _ _ _ Hp) as Hlt.
  exists p, (nth (length (sorted (members o players)) - p - 1) (sorted (members o players)) e).
  split; [exact Hp|]. split; [exact Hlt|]. split.
  - unfold getitem.
    rewrite (nth_error_nth' (sorted (members o players)) e) by lia. reflexivity.
  - apply (members_In_elos outcomes elos o).
    eapply Permutation_in; [apply Permutation_sym, sorted_perm|].
    apply nth_In. fold players. lia.
Qed.

Lemma player_loop_lookups_succeed_witness :
  Rating.counts (Rating.group_players [Draw; Draw; Draw] [1400; 1000; 1200]) Draw <> 0%nat
  /\ exists position_in_team opponent_elo,
       index 1400 (Rating.single_team_elos
                     (Rating.group_players [Draw; Draw; Draw] [1400; 1000; 1200]))
       = Ok position_in_team
       /\ In opponent_elo [1400; 1000; 1200].
Proof.
  destruct (player_loop_lookups_succeed [Draw; Draw; Draw] [1400; 1000; 1200] Draw 1400)
    as (Hc & Hteam); [simpl; auto|].
  split; [exact Hc|].
  destruct (Hteam eq_refl) as (p & opp & Hp & _ & _ & Hopp).
  exists p, opp. split; [exact Hp | exact Hopp].
Defined.

(** X6: with more outcomes than ratings the engine raises [AssertionError]:
    the loop stops at the shorter list and the length assertion fails. *)
Theorem engine_rejects_missing_ratings (k : R) (outcomes : list Outcome) (elos : list R) :
  (length elos < length outcomes)%nat ->
  Rating._calculate_delta_scores k outcomes elos = Raise AssertionError.
Proof.
  intros Hlt. unfold Rating._calculate_delta_scores.
  destruct (player_deltas_total k outcomes elos) as (ds & Hds). rewrite Hds.
  cbn [bind].
  pose proof (player_deltas_length _ _ _ _ Hds) as Hlen.
  rewrite length_combine in Hlen.
  destruct (Nat.eqb_spec (length ds) (length outcomes)) as [E|E]; [lia|].
  reflexivity.
Qed.

Lemma engine_rejects_missing_ratings_witness :
  Rating._calculate_delta_scores 32 [Win; Loss] [1000] = Raise AssertionError.
Proof. apply engine_rejects_missing_ratings. simpl. lia. Defined.

(** X7: when three players or more have at least two different outcomes,
    the engine returns, the deltas sum to exactly zero, and two players with
    the same outcome get the same delta, whatever their ratings. *)
Theorem several_groups_share_equally
    (k : R) (outcomes : list Outcome) (elos : list R) (o1 o2 : Outcome) :
  length outcomes = length elos ->
  In o1 outcomes -> In o2 outcomes -> o1 <> o2 ->
  (2 < length outcomes)%nat ->
  exists deltas,
    Rating._calculate_delta_scores k outcomes elos = Ok deltas
    /\ sum deltas = 0
    /\ forall i j o, nth_error outcomes i = Some o -> nth_error outcomes j = Some o ->
                     nth_error deltas i = nth_error deltas j.
Proof.
  intros Hlen H1 H2 Hne Hthree.
  assert (Hdl : outcomes <> [Draw; Loss]) by (intros ->; simpl in Hthree; lia).
  assert (Hnone : Rating.single_team_outcome (Rating.group_players outcomes elos) = None).
  { apply (two_groups_no_single _ o1 o2 Hne); apply In_outcome_counted; assumption. }
  destruct (several_groups_zero_sum k outcomes elos Hlen Hnone Hdl)
    as (deltas & Hret & _ & Hsum).
  exists deltas. split; [exact Hret|]. split; [exact Hsum|].
  intros i j o Hi Hj.
  pose proof (engine_returns_loop _ _ _ _ Hret) as Hloop.
  rewrite (several_groups_loop k outcomes elos Hnone) in Hloop. injection Hloop as <-.
  assert (Hc : forall n, nth_error outcomes n = Some o ->
                         exists e, nth_error (combine outcomes elos) n = Some (o, e)).
  { intros n Hn.
    assert (Hlt : (n < length elos)%nat)
      by (rewrite <- Hlen; apply nth_error_Some; congruence).
    destruct (nth_error elos n) as [e|] eqn:He; [|apply nth_error_None in He; lia].
    exists e. apply nth_error_combine_Some; assumption. }
  destruct (Hc i Hi) as (ei & Hci). destruct (Hc j Hj) as (ej & Hcj).
  rewrite !nth_error_map, Hci, Hcj. reflexivity.
Qed.

Lemma several_groups_share_equally_witness :
  exists deltas,
    Rating._calculate_delta_scores 32 [Win; Loss; Loss] [1000; 1200; 1500] = Ok deltas
    /\ sum deltas = 0
    /\ nth_error deltas 1 = nth_error deltas 2.
Proof.
  destruct (several_groups_share_equally 32 [Win; Loss; Loss] [1000; 1200; 1500] Win Loss)
    as (deltas & Hret & Hsum & Hsame);
    [reflexivity | simpl; auto | simpl; auto | discriminate | simpl; lia |].
  exists deltas. split; [exact Hret|]. split; [exact Hsum|].
  apply (Hsame 1%nat 2%nat Loss); reflexivity.
Defined.

(** X8: with a turbulence that is not negative, in a match where not all
    the players have the same outcome, no winner's delta is negative and no
    loser's delta is positive. *)
Theorem winners_gain_losers_lose
    (k : R) (outcomes : list Outcome) (elos deltas : list R)
    (i : nat) (o other : Outcome) (d : R) :
  0 <= k ->
  length outcomes = length elos ->
  Rating._calculate_delta_scores k outcomes elos = Ok deltas ->
  nth_error outcomes i = Some o -> nth_error deltas i = Some d ->
  In other outcomes -> other <> o ->
  (o = Win -> 0 <= d) /\ (o = Loss -> d <= 0).
Proof.
  intros Hk Hlen Hret Hi Hd Hother Hne.
  pose proof (engine_returns_loop _ _ _ _ Hret) as Hloop.
  set (g := Rating.group_players outcomes elos) in *.
  assert (Hco : Rating.counts g o <> 0%nat).
  { apply In_outcome_counted; [assumption|]. eapply nth_error_In; eassumption. }
  assert (Hcother : Rating.counts g other <> 0%nat)
    by (apply In_outcome_counted; assumption).
  assert (Hnone : Rating.single_team_outcome g = None)
    by (apply (two_groups_no_single g other o Hne); assumption).
  assert (Hlt : (i < length elos)%nat)
    by (rewrite <- Hlen; apply nth_error_Some; congruence).
  destruct (nth_error elos i) as [e|] eqn:He; [|apply nth_error_None in He; lia].
  pose proof (nth_error_combine_Some _ _ _ _ _ Hi He) as Hp.
  pose proof (player_deltas_nth _ _ _ _ _ _ _ Hloop Hp Hd) as Hdelta.
  destruct (player_delta_shape k outcomes elos o e d (nth_error_In _ _ Hp) Hdelta)
    as [[_ ->] | [Hs _]];
    [|unfold Rating.is_single_team in Hs; fold g in Hs; rewrite Hnone in Hs; discriminate].
  fold g.
  assert (Hpos : 0 < / INR (Rating.counts g o))
    by (apply Rinv_0_lt_compat, lt_0_INR; lia).
  destruct (pairing_bounds k g Hk) as ((Hwl & _) & (Hwd & _) & (Hld & _)).
  unfold Rdiv, inter_total.
  split; intros ->; nra.
Qed.

Lemma three_players_return :
  exists d, Rating._calculate_delta_scores 32 [Win; Loss; Loss] [1000; 1200; 1500]
            = Ok [d; - d / 2; - d / 2].
Proof.
  exists (Rating._calculate_delta_scores_pair 32 1000 2700 1).
  apply engine_returns.
  - engine_cbn.
    replace (0 + 1000) with 1000 by lra. replace (0 + 1200 + 1500) with 2700 by lra.
    simpl INR. list_eq.
  - reflexivity.
  - cbn [sum fold_left]. field.
  - reflexivity.
Qed.

Lemma winners_gain_losers_lose_witness :
  exists d, Rating._calculate_delta_scores 32 [Win; Loss; Loss] [1000; 1200; 1500]
            = Ok [d; - d / 2; - d / 2]
            /\ 0 <= d.
Proof.
  destruct three_players_return as (d & Hd). exists d. split; [exact Hd|].
  destruct (winners_gain_losers_lose 32 [Win; Loss; Loss] [1000; 1200; 1500]
              [d; - d / 2; - d / 2] 0 Win Loss d) as (H & _);
    [lra | reflexivity | exact Hd | reflexivity | reflexivity | simpl; auto | discriminate |].
  apply H. reflexivity.
Defined.

(** X9: with a turbulence that is not negative, no delta the engine returns
    is larger than twice the turbulence in absolute value. *)
Theorem deltas_bounded
    (k : R) (outcomes : list Outcome) (elos deltas : list R) (d : R) :
  0 <= k ->
  Rating._calculate_delta_scores k outcomes elos = Ok deltas ->
  In d deltas ->
  Rabs d <= 2 * k.
Proof.
  intros Hk Hret Hin.
  pose proof (engine_returns_loop _ _ _ _ Hret) as Hloop.
  apply In_nth_error in Hin as (i & Hd).
  assert (Hlt : (i < length (combine outcomes elos))%nat).
  { rewrite <- (player_deltas_length _ _ _ _ Hloop). apply nth_error_Some. congruence. }
  destruct (nth_error (combine outcomes elos) i) as [[o e]|] eqn:Hp;
    [|apply nth_error_None in Hp; lia].
  pose proof (player_deltas_nth _ _ _ _ _ _ _ Hloop Hp Hd) as Hdelta.
  pose proof (nth_error_In _ _ Hp) as Hmem.
  destruct (player_delta_shape k outcomes elos o e d Hmem Hdelta)
    as [[_ ->] | [_ (opp & ->)]].
  - set (g := Rating.group_players outcomes elos).
    pose proof (member_counted outcomes elos o e Hmem) as Hc. fold g in Hc.
    assert (H1 : 1 <= INR (Rating.counts g o)).
    { replace 1 with (INR 1) by reflexivity. apply le_INR. lia. }
    destruct (pairing_bounds k g Hk) as (Hwl & Hwd & Hld).
    assert (Hnum : Rabs (inter_total k g o) <= 2 * k).
    { apply Rabs_le. unfold inter_total. destruct o; split; lra. }
    unfold Rdiv. rewrite Rabs_mult, (Rabs_right (/ _)).
    + assert (Hinv : / INR (Rating.counts g o) <= 1).
      { rewrite <- Rinv_1. apply Rinv_le_contravar; lra. }
      assert (0 < / INR (Rating.counts g o)) by (apply Rinv_0_lt_compat; lra).
      pose proof (Rabs_pos (inter_total k g o)). nra.
    + apply Rle_ge. left. apply Rinv_0_lt_compat. lra.
  - pose proof (draw_bounds k e opp Hk). lra.
Qed.

Lemma deltas_bounded_witness :
  Rating._calculate_delta_scores 32 [Draw; Draw; Draw] [1000; 1200; 1400]
  = Ok [144 / 11; 0; - (144 / 11)]
  /\ Rabs (144 / 11) <= 2 * 32.
Proof.
  split; [exact three_draws_return|].
  apply (deltas_bounded 32 [Draw; Draw; Draw] [1000; 1200; 1400]
           [144 / 11; 0; - (144 / 11)]); [lra | exact three_draws_return | simpl; auto].
Defined.

(** X10: when all the players have the same outcome and no two of them the
    same rating (turbulence not negative), the engine returns for every
    player the draw formula between its rating and the rating at the mirror
    position of the team sorted ascending; these deltas sum to exactly zero
    and the player in the middle of a team of odd size gets 0. *)
Theorem single_group_distinct_ratings (k : R) (o : Outcome) (elos : list R) :
  0 <= k -> elos <> [] -> NoDup elos ->
  let delta := fun e =>
    Rating._calculate_delta_scores_pair k e (mirror (sorted elos) e) (1 / 2) in
  Rating._calculate_delta_scores k (repeat o (length elos)) elos = Ok (map delta elos)
  /\ sum (map delta elos) = 0
  /\ forall e p, index e (sorted elos) = Ok p -> length elos = (2 * p + 1)%nat ->
                 delta e = 0.
Proof.
  intros Hk Hne Hnd delta.
  destruct (single_group_mirror k o elos Hk Hne Hnd) as [Hret Hsum].
  split; [exact Hret|]. split; [exact Hsum|].
  intros e p Hp Hlen. unfold delta.
  rewrite (mirror_middle (sorted elos) p e Hp).
  - rewrite pair_same. lra.
  - rewrite <- (Permutation_length (sorted_perm elos)). exact Hlen.
Qed.

Lemma single_group_distinct_ratings_witness :
  Rating._calculate_delta_scores 32 (repeat Win 3) [1400; 1000; 1200]
  = Ok (map (fun e => Rating._calculate_delta_scores_pair 32 e
                        (mirror (sorted [1400; 1000; 1200]) e) (1 / 2))
            [1400; 1000; 1200]).
Proof.
  destruct (single_group_distinct_ratings 32 Win [1400; 1000; 1200]) as (H & _).
  - lra.
  - discriminate.
  - repeat constructor; simpl; intuition lra.
  - exact H.
Defined.

(** X11: two players.  When the first wins and the second does not, the
    engine returns the base formula with win-weight 1 for the first player
    and its negation for the second.  With the same outcome (turbulence not
    negative) it returns for each the draw formula against the other, also
    when both have the same rating. *)
Theorem two_player_match (k e0 e1 : R) :
  (forall o1, o1 <> Win ->
     Rating._calculate_delta_scores k [Win; o1] [e0; e1]
     = Ok [Rating._calculate_delta_scores_pair k e0 e1 1;
           - Rating._calculate_delta_scores_pair k e0 e1 1])
  /\ (0 <= k ->
      forall o, Rating._calculate_delta_scores k [o; o] [e0; e1]
                = Ok [Rating._calculate_delta_scores_pair k e0 e1 (1 / 2);
                      Rating._calculate_delta_scores_pair k e1 e0 (1 / 2)]).
Proof.
  split.
  - intros o1 Hne.
    apply (two_player_equivalence k e0 e1 Win o1); [congruence | discriminate].
  - intros Hk o.
    pose proof (pair_opposite k e0 e1 (1 / 2)) as Hopp.
    replace (1 - 1 / 2) with (1 / 2) in Hopp by lra.
    set (x := Rating._calculate_delta_scores_pair k e0 e1 (1 / 2)) in *.
    assert (Hloop : Rating.player_deltas k (Rating.group_players [o; o] [e0; e1])
                      (combine [o; o] [e0; e1])
                    = Ok [x; Rating._calculate_delta_scores_pair k e1 e0 (1 / 2)]).
    { destruct (Rtotal_order e0 e1) as [Hlt|[Heq|Hgt]].
      - destruct o; engine_eval; fold x; simpl INR; list_eq.
      - subst e1. unfold x in *. rewrite pair_same in *.
        destruct o; engine_eval; rewrite ?pair_same; simpl INR; list_eq.
      - destruct o; engine_eval; fold x; simpl INR; list_eq. }
    apply engine_returns; [exact Hloop | reflexivity | cbn [sum fold_left]; lra |].
    destruct o; try reflexivity.
    rewrite Hopp.
    assert (Hsign : e0 <= e1 -> 0 <= x) by (intros; apply draw_sign; assumption).
    assert (Hsign' : e1 <= e0 -> x <= 0).
    { intros H. pose proof (draw_sign k e1 e0 Hk H) as H'. rewrite Hopp in H'. lra. }
    pose proof (pair_same k e0 (1 / 2)) as Hsame.
    cbn [Rating.two_player_check Outcome_eqb andb negb list_min list_max fold_left bind].
    unfold Rmin, Rmax.
    destruct (Rle_dec e0 e1) as [Hle|Hnle].
    + specialize (Hsign Hle).
      destruct (Rle_dec x (- x)) as [Hx|Hx].
      * assert (x = 0) by lra.
        rewrite isclose_eq; [reflexivity|]. fold x. lra.
      * rewrite isclose_eq; [reflexivity|]. reflexivity.
    + assert (Hge : e1 <= e0) by lra. specialize (Hsign' Hge).
      destruct (Rle_dec x (- x)) as [Hx|Hx].
      * rewrite isclose_eq; [reflexivity|]. rewrite Hopp. reflexivity.
      * exfalso. lra.
Qed.

Lemma two_player_match_witness :
  Rating._calculate_delta_scores 32 [Draw; Draw] [1200; 1400]
  = Ok [Rating._calculate_delta_scores_pair 32 1200 1400 (1 / 2);
        Rating._calculate_delta_scores_pair 32 1400 1200 (1 / 2)].
Proof.
  destruct (two_player_match 32 1200 1400) as (_ & H). apply H. lra.
Defined.

(** ** The rows written for a match *)

(** What [_save_result] returns when it returns *)
Lemma save_result_shape (k init : R) (now : nat) (db : Database) (subs : list Submission.t)
    (payload : Payload) (update_scores : bool) (db' : Database) :
  Recorder._save_result k init now db subs payload update_scores = Ok db' ->
  exists deltas,
    length subs = length (submission_results payload)
    /\ length deltas = length subs
    /\ (if update_scores then Rabs (sum deltas) < 1 / 1000000
        else deltas = repeat 0 (length subs))
    /\ db' = {| submissions := submissions db;
                results := results db
                           ++ Recorder.new_results (length (matches db))
                                (map Submission.id subs) (submission_results payload) deltas;
                matches := matches db
                           ++ [ {| Match.match_date := now;
                                   Match.recording := recording payload |} ] |}.
Proof.
  unfold Recorder._save_result. cbn zeta.
  destruct (Nat.eqb_spec (length (map Submission.id subs))
                         (length (submission_results payload))) as [E|E];
    cbn [negb]; [|discriminate].
  rewrite length_map in E.
  intros H. apply bind_Ok in H as (deltas & Hd & H). injection H as <-.
  exists deltas. split; [assumption|].
  destruct update_scores.
  - apply returned_deltas_zero_sum in Hd as [Hlen Hsum].
    rewrite length_map in Hlen. split; [lia|]. split; [assumption | reflexivity].
  - injection Hd as <-. rewrite length_map, repeat_length.
    split; [reflexivity|]. split; reflexivity.
Qed.

Lemma sum_repeat_zero (n : nat) : sum (repeat 0 n) = 0.
Proof.
  apply sum_zeros. apply Forall_forall. intros x Hx. apply repeat_spec in Hx. assumption.
Qed.

(** ** Recording in general *)

(** X12: a match that is recorded adds exactly one match, dated by the
    clock, and exactly one result per submission, in the order of the slots,
    each with the id of its submission, the outcome and the health flag of
    its slot, and the index of the new match; the rows and matches already
    stored and the submissions are left as they were. *)
Theorem save_result_appends (k init : R) (now : nat) (db : Database)
    (subs : list Submission.t) (payload : Payload) (update_scores : bool) (db' : Database) :
  Recorder._save_result k init now db subs payload update_scores = Ok db' ->
  submissions db' = submissions db
  /\ (exists m, matches db' = matches db ++ [m] /\ Match.match_date m = now)
  /\ exists new,
       results db' = results db ++ new
       /\ length new = length subs
       /\ map Result.submission_id new = map Submission.id subs
       /\ map Result.outcome new
          = map SubmissionResult.outcome (submission_results payload)
       /\ map Result.healthy new
          = map SubmissionResult.healthy (submission_results payload)
       /\ Forall (fun r => Result.match_id r = length (matches db)) new.
Proof.
  intros H. apply save_result_shape in H as (deltas & Hlen & Hd & _ & ->).
  cbn [submissions matches results].
  split; [reflexivity|]. split; [eexists; split; reflexivity|].
  assert (Hids : length (map Submission.id subs) = length (submission_results payload))
    by (rewrite length_map; assumption).
  assert (Hds : length deltas = length (map Submission.id subs))
    by (rewrite length_map; assumption).
  eexists. split; [reflexivity|].
  split; [rewrite new_results_length, length_map by assumption; reflexivity|].
  split; [apply new_results_ids; assumption|].
  split; [apply new_results_slots; assumption|].
  split; [apply new_results_slots; assumption|].
  apply Forall_forall. intros r Hr. apply (new_results_match _ _ _ _ _ Hr).
Qed.

Lemma save_result_appends_witness :
  exists db',
    Recorder._save_result 32 1000 30 db1 [sub 4 9 true; sub 4 9 true]
      {| recording := String.EmptyString;
         submission_results := [crash Draw; crash Loss] |} false = Ok db'
    /\ length (matches db') = 3%nat.
Proof.
  eexists. split; [reflexivity|].
  destruct (save_result_appends 32 1000 30%nat db1 [sub 4 9 true; sub 4 9 true]
              {| recording := String.EmptyString;
                 submission_results := [crash Draw; crash Loss] |} false _ eq_refl)
    as (_ & (m & Hm & _) & _).
  rewrite Hm. rewrite length_app. reflexivity.
Defined.

(** X13: for a payload whose slots decode, [_save_result] raises
    [ValueError] exactly when the payload does not have one result per
    submission, whether ratings are updated or not. *)
Theorem save_result_failures (k init : R) (now : nat) (db : Database)
    (subs : list Submission.t) (payload : Payload) (update_scores : bool) :
  Recorder._save_result k init now db subs payload update_scores = Raise ValueError
  <-> length subs <> length (submission_results payload).
Proof.
  unfold Recorder._save_result. cbn zeta.
  destruct (Nat.eqb_spec (length (map Submission.id subs))
                         (length (submission_results payload))) as [E|E];
    cbn [negb]; rewrite length_map in E.
  - split; [|congruence].
    destruct update_scores; [|discriminate].
    destruct (engine_returns_or_asserts k
                (map SubmissionResult.outcome (submission_results payload))
                (Recorder._get_elos init db (map Submission.id subs)))
      as [(ds & -> & _)| ->]; cbn [bind]; discriminate.
  - split; [intros _; assumption | reflexivity].
Qed.

Lemma save_result_failures_witness :
  Recorder._save_result 32 1000 30 db1 [sub 4 9 true]
    {| recording := String.EmptyString;
       submission_results := [crash Draw; crash Loss] |} true = Raise ValueError.
Proof.
  apply (save_result_failures 32 1000 30%nat db1 [sub 4 9 true]
           {| recording := String.EmptyString;
              submission_results := [crash Draw; crash Loss] |} true).
  simpl. lia.
Defined.

(** X14: recording a match changes the sum of all the deltas of the store by
    less than 1e-6 in absolute value, and by nothing when rating updates are
    disabled. *)
Theorem save_result_conserves_points (k init : R) (now : nat) (db : Database)
    (subs : list Submission.t) (payload : Payload) (update_scores : bool) (db' : Database) :
  Recorder._save_result k init now db subs payload update_scores = Ok db' ->
  Rabs (sum (map Result.points_delta (results db'))
        - sum (map Result.points_delta (results db))) < 1 / 1000000
  /\ (update_scores = false ->
      sum (map Result.points_delta (results db'))
      = sum (map Result.points_delta (results db))).
Proof.
  intros H. apply save_result_shape in H as (deltas & Hlen & Hd & Hsum & ->).
  cbn [results]. rewrite map_app, sum_app.
  rewrite new_results_deltas by (rewrite length_map; assumption).
  split.
  - replace (sum (map Result.points_delta (results db)) + sum deltas
             - sum (map Result.points_delta (results db))) with (sum deltas) by lra.
    destruct update_scores; [assumption|].
    rewrite Hsum, sum_repeat_zero, Rabs_R0. lra.
  - intros ->. rewrite Hsum, sum_repeat_zero. lra.
Qed.

Lemma save_result_conserves_points_witness :
  exists db',
    Recorder._save_result 32 1000 30 db1 [sub 4 9 true; sub 4 9 true]
      {| recording := String.EmptyString;
         submission_results := [crash Draw; crash Loss] |} false = Ok db'
    /\ sum (map Result.points_delta (results db'))
       = sum (map Result.points_delta (results db1)).
Proof.
  eexists. split; [reflexivity|].
  destruct (save_result_conserves_points 32 1000 30%nat db1 [sub 4 9 true; sub 4 9 true]
              {| recording := String.EmptyString;
                 submission_results := [crash Draw; crash Loss] |} false _ eq_refl)
    as (_ & H).
  apply H. reflexivity.
Defined.

(** ** The rating query at the start *)

(** X15: as long as every stored delta is 0 (no rated match was recorded
    yet), the rating fetched for every entrant is the initial score (unique
    submission ids). *)
Theorem get_elos_initial (init : R) (db : Database) (ids : list nat) :
  NoDup (map Submission.id (submissions db)) ->
  Forall (fun r => Result.points_delta r = 0) (results db) ->
  Recorder._get_elos init db ids = map (fun _ => init) ids.
Proof.
  intros Hnd Hz. rewrite (get_elos_closed_form init db ids Hnd).
  apply map_ext. intros i.
  destruct (owner db i) as [s|]; [|lra].
  unfold match_points. rewrite sum_zeros; [lra|].
  apply Forall_forall. intros x Hx.
  apply in_map_iff in Hx as (r & <- & Hr). apply filter_In in Hr as [Hr _].
  rewrite Forall_forall in Hz. auto.
Qed.

Lemma get_elos_initial_witness :
  Recorder._get_elos 1000
    {| submissions := submissions db1;
       results := [res 1 2 Draw true 0; res 1 2 Draw true 0];
       matches := matches db1 |} [2%nat; 4%nat] = [1000; 1000].
Proof.
  apply (get_elos_initial 1000
           {| submissions := submissions db1;
              results := [res 1 2 Draw true 0; res 1 2 Draw true 0];
              matches := matches db1 |} [2%nat; 4%nat]).
  - exact db1_ids_unique.
  - repeat constructor.
Defined.

(** X16: the rating query answers with one rating per requested id, in the
    order of the ids, whatever the store; an id that no submission of the
    store has gets the initial score. *)
Theorem get_elos_per_id (init : R) (db : Database) (ids : list nat) :
  length (Recorder._get_elos init db ids) = length ids
  /\ forall n i, nth_error ids n = Some i ->
                 (forall s, In s (submissions db) -> Submission.id s <> i) ->
                 nth_error (Recorder._get_elos init db ids) n = Some (0 + init).
Proof.
  split; [unfold Recorder._get_elos; apply length_map|].
  intros n i Hn Hnone. unfold Recorder._get_elos.
  rewrite nth_error_map, Hn. cbn [option_map].
  destruct (dict_of (Recorder.elo_rows db ids) i) as [v|] eqn:E; [|reflexivity].
  exfalso. apply dict_of_Some in E. apply elo_rows_In in E as (s & Hs & Hid & _).
  apply (Hnone s Hs Hid).
Qed.

Lemma get_elos_per_id_witness :
  nth_error (Recorder._get_elos 1000 db0 [2%nat; 50%nat]) 1 = Some (0 + 1000).
Proof.
  destruct (get_elos_per_id 1000 db0 [2%nat; 50%nat]) as (_ & H).
  apply (H 1%nat 50%nat); [reflexivity|].
  intros s Hs. cbn in Hs. intuition (subst; discriminate).
Defined.

(** ** One match *)

Lemma getitems_incl {A : Type} (l : list A) (positions : list nat) (picked : list A) :
  Recorder.getitems l positions = Ok picked ->
  incl picked l /\ length picked = length positions.
Proof.
  revert picked. induction positions as [|i rest IH]; intros picked H; simpl in H.
  - injection H as <-. split; [apply incl_nil_l | reflexivity].
  - apply bind_Ok in H as (a & Ha & H). apply bind_Ok in H as (t & Ht & H).
    injection H as <-. destruct (IH t Ht) as [Hincl Hlen]. split.
    + apply incl_cons; [|assumption].
      apply getitem_Ok in Ha. eapply nth_error_In; eassumption.
    + simpl. f_equal. assumption.
Qed.

Section Matches.

Variables (k init : R).
Variable runner : String.string -> String.string -> list String.string -> raises Payload.

Lemma typical_match_cases (now : nat) (i_submissions : list nat) (gamemode : Gamemode.t)
    (options : String.string) (db db' : Database) (b : bool) :
  Recorder._run_typical_match k init runner now i_submissions gamemode options db
  = Ok (b, db') ->
  let newest := Recorder._get_all_latest_healthy_submissions db in
  (b = false /\ db' = db
   /\ (0 < Gamemode.player_count gamemode)%nat
   /\ (length newest < Gamemode.player_count gamemode)%nat)
  \/ (b = true
      /\ (Gamemode.player_count gamemode <= length newest)%nat
      /\ exists subs payload,
           incl subs (map fst newest)
           /\ Recorder._run_match runner gamemode options subs = Ok payload
           /\ Recorder._save_result k init now db subs payload
                (existsb SubmissionResult.healthy (submission_results payload)) = Ok db').
Proof.
  unfold Recorder._run_typical_match. cbn zeta.
  destruct (Nat.ltb_spec 0 (Gamemode.player_count gamemode)) as [Hpc|Hpc];
    destruct (Nat.ltb_spec (length (Recorder._get_all_latest_healthy_submissions db))
                           (Gamemode.player_count gamemode)) as [Hfew|Hfew];
    cbn [andb].
  - intros H. injection H as <- <-. left. auto.
  - intros H. apply bind_Ok in H as (subs & Hsubs & H).
    apply bind_Ok in H as (payload & Hrun & H).
    apply bind_Ok in H as (db'' & Hsave & H). injection H as <- <-.
    right. split; [reflexivity|]. split; [assumption|].
    exists subs, payload. split; [|auto].
    apply (getitems_incl _ _ _ Hsubs).
  - lia.
  - intros H. apply bind_Ok in H as (subs & Hsubs & H).
    apply bind_Ok in H as (payload & Hrun & H).
    apply bind_Ok in H as (db'' & Hsave & H). injection H as <- <-.
    injection Hsubs as <-.
    right. split; [reflexivity|]. split; [lia|].
    exists [], payload. split; [apply incl_nil_l | auto].
Qed.

Lemma test_match_cases (now choice : nat) (gamemode : Gamemode.t)
    (options : String.string) (db db' : Database) (b : bool) :
  Recorder._run_test_match k init runner now choice gamemode options db = Ok (b, db') ->
  let newest := Recorder._get_all_untested_submissions db in
  (b = false /\ db' = db /\ (0 < Gamemode.player_count gamemode)%nat /\ newest = [])
  \/ (b = true
      /\ exists subs payload,
           ((Gamemode.player_count gamemode = 0%nat /\ subs = [])
            \/ ((0 < Gamemode.player_count gamemode)%nat
                /\ exists s, In s newest
                             /\ subs = repeat s (Gamemode.player_count gamemode)))
           /\ Recorder._run_match runner gamemode options subs = Ok payload
           /\ Recorder._save_result k init now db subs payload false = Ok db').
Proof.
  unfold Recorder._run_test_match. cbn zeta.
  destruct (Nat.ltb_spec 0 (Gamemode.player_count gamemode)) as [Hpc|Hpc];
    destruct (Nat.eqb_spec (length (Recorder._get_all_untested_submissions db)) 0)
      as [Hnone|Hsome]; cbn [andb].
  - intros H. injection H as <- <-. left.
    destruct (Recorder._get_all_untested_submissions db); [auto | discriminate].
  - intros H. apply bind_Ok in H as (subs & Hsubs & H).
    apply bind_Ok in H as (payload & Hrun & H).
    apply bind_Ok in H as (db'' & Hsave & H). injection H as <- <-.
    apply bind_Ok in Hsubs as (s & Hs & Hsubs). injection Hsubs as <-.
    right. split; [reflexivity|].
    exists (repeat s (Gamemode.player_count gamemode)), payload. split; [|auto].
    right. split; [assumption|]. exists s. split; [|reflexivity].
    apply getitem_Ok in Hs. eapply nth_error_In; eassumption.
  - intros H. apply bind_Ok in H as (subs & Hsubs & H).
    apply bind_Ok in H as (payload & Hrun & H).
    apply bind_Ok in H as (db'' & Hsave & H). injection H as <- <-.
    injection Hsubs as <-.
    right. split; [reflexivity|]. exists [], payload. split; [|auto]. left. split; [lia | reflexivity].
  - intros H. apply bind_Ok in H as (subs & Hsubs & H).
    apply bind_Ok in H as (payload & Hrun & H).
    apply bind_Ok in H as (db'' & Hsave & H). injection H as <- <-.
    injection Hsubs as <-.
    right. split; [reflexivity|]. exists [], payload. split; [|auto]. left. split; [lia | reflexivity].
Qed.

Lemma latest_in_store (db : Database) :
  incl (map fst (Recorder._get_all_latest_healthy_submissions db)) (submissions db).
Proof.
  unfold Recorder._get_all_latest_healthy_submissions. rewrite map_map. cbn [fst].
  rewrite map_id. intros s Hs. apply filter_In in Hs as [Hs _]. assumption.
Qed.

Lemma untested_in_store (db : Database) :
  incl (Recorder._get_all_untested_submissions db) (submissions db).
Proof.
  unfold Recorder._get_all_untested_submissions.
  intros s Hs. apply filter_In in Hs as [Hs _]. assumption.
Qed.

(** What an iteration does to the store *)
Lemma run_one_cases (d : Recorder.Draws) (gamemode : Gamemode.t) (options : String.string)
    (db db' : Database) (b : bool) :
  Recorder._run_one k init runner d gamemode options db = (b, db') ->
  (b = false /\ db' = db)
  \/ (b = true
      /\ exists subs payload update_scores,
           incl subs (submissions db)
           /\ Recorder._save_result k init (Recorder.now d) db subs payload update_scores
              = Ok db').
Proof.
  unfold Recorder._run_one.
  destruct (Recorder._run_test_match k init runner (Recorder.now d) (Recorder.choice d)
              gamemode options db) as [[[|] db1]|e] eqn:Etest.
  - intros H. injection H as <- <-. right. split; [reflexivity|].
    destruct (test_match_cases _ _ _ _ _ _ _ Etest)
      as [(Hb & _) | (_ & subs & payload & Hsubs & _ & Hsave)]; [discriminate|].
    exists subs, payload, false. split; [|assumption].
    destruct Hsubs as [[_ ->] | (_ & s & Hs & ->)]; [apply incl_nil_l|].
    intros x Hx. apply repeat_spec in Hx. subst x.
    apply untested_in_store. assumption.
  - destruct (Recorder._run_typical_match k init runner (Recorder.now d)
                (Recorder.i_submissions d) gamemode options db) as [[b2 db2]|e] eqn:Etyp.
    + intros H. injection H as <- <-.
      destruct (typical_match_cases _ _ _ _ _ _ _ Etyp)
        as [(-> & -> & _) | (-> & _ & subs & payload & Hsubs & _ & Hsave)];
        [left; auto|].
      right. split; [reflexivity|]. eexists subs, payload, _. split; [|exact Hsave].
      intros x Hx. apply latest_in_store. apply Hsubs. assumption.
    + intros H. injection H as <- <-. left. auto.
  - intros H. injection H as <- <-. left. auto.
Qed.

End Matches.

(** ** One iteration of the worker *)

Lemma save_result_consistent (k init : R) (now : nat) (db : Database)
    (subs : list Submission.t) (payload : Payload) (update_scores : bool) (db' : Database) :
  incl subs (submissions db) ->
  Recorder._save_result k init now db subs payload update_scores = Ok db' ->
  consistent db -> consistent db'.
Proof.
  intros Hincl H Hc. apply save_result_shape in H as (deltas & _ & _ & _ & ->).
  intros r Hr. cbn [results matches submissions] in *.
  rewrite length_app. cbn [length].
  apply in_app_or in Hr as [Hr|Hr].
  - destruct (Hc r Hr) as [Hm Hs]. split; [lia | exact Hs].
  - apply new_results_match in Hr as [Hm Hid]. split; [lia|].
    apply in_map_iff in Hid as (s & Hid & Hs). exists s. split; [apply Hincl|]; assumption.
Qed.

(** X17: an iteration of the worker either fails and leaves the store as it
    was, or succeeds and adds exactly one match, with all the new results
    attached to it; it never changes the submissions. *)
Theorem iteration_all_or_nothing (k init : R)
    (runner : String.string -> String.string -> list String.string -> raises Payload)
    (d : Recorder.Draws) (gamemode : Gamemode.t) (options : String.string)
    (db db' : Database) (b : bool) :
  Recorder._run_one k init runner d gamemode options db = (b, db') ->
  submissions db' = submissions db
  /\ (b = false -> db' = db)
  /\ (b = true ->
      length (matches db') = S (length (matches db))
      /\ exists new,
           results db' = results db ++ new
           /\ Forall (fun r => Result.match_id r = length (matches db)) new).
Proof.
  intros H.
  destruct (run_one_cases _ _ _ _ _ _ _ _ _ H)
    as [(-> & ->) | (-> & subs & payload & flag & _ & Hsave)].
  - split; [reflexivity|]. split; [reflexivity | discriminate].
  - apply save_result_shape in Hsave as (deltas & _ & _ & _ & ->).
    cbn [submissions matches results].
    split; [reflexivity|]. split; [discriminate|]. intros _.
    split; [rewrite length_app; simpl; lia|].
    eexists. split; [reflexivity|].
    apply Forall_forall. intros r Hr. apply (new_results_match _ _ _ _ _ Hr).
Qed.

Lemma iteration_all_or_nothing_witness :
  exists db',
    Recorder._run_one 32 1000 crashing_runner draws0 two_players String.EmptyString db1
    = (true, db')
    /\ length (matches db') = 3%nat.
Proof.
  eexists. split; [reflexivity|].
  destruct (iteration_all_or_nothing 32 1000 crashing_runner draws0 two_players
              String.EmptyString db1 _ true eq_refl) as (_ & _ & H).
  destruct (H eq_refl) as [Hm _]. exact Hm.
Defined.

(** X18: an iteration of the worker keeps the store consistent: if every
    result refers to a stored match and to a stored submission before, so it
    does afterwards. *)
Theorem iteration_keeps_consistent (k init : R)
    (runner : String.string -> String.string -> list String.string -> raises Payload)
    (d : Recorder.Draws) (gamemode : Gamemode.t) (options : String.string)
    (db db' : Database) (b : bool) :
  consistent db ->
  Recorder._run_one k init runner d gamemode options db = (b, db') ->
  consistent db'.
Proof.
  intros Hc H.
  destruct (run_one_cases _ _ _ _ _ _ _ _ _ H)
    as [(_ & ->) | (_ & subs & payload & flag & Hincl & Hsave)]; [assumption|].
  eapply save_result_consistent; eassumption.
Qed.

Lemma db1_consistent : consistent db1.
Proof.
  intros r Hr. cbn in Hr.
  destruct Hr as [<-|[<-|[<-|[<-|[]]]]]; cbn; (split; [lia|]).
  - exists (sub 1 7 false). auto.
  - exists (sub 3 8 true). auto.
  - exists (sub 2 7 true). auto.
  - exists (sub 2 7 true). auto.
Qed.

Lemma iteration_keeps_consistent_witness :
  consistent (snd (Recorder._run_one 32 1000 crashing_runner draws0 two_players
                     String.EmptyString db1)).
Proof.
  apply (iteration_keeps_consistent 32 1000 crashing_runner draws0 two_players
           String.EmptyString db1 _ true db1_consistent).
  reflexivity.
Defined.

(** X19: while some submission has no result yet, an iteration plays no
    rated match: whether it succeeds or fails, every result it adds has
    delta 0. *)
Theorem untested_first (k init : R)
    (runner : String.string -> String.string -> list String.string -> raises Payload)
    (d : Recorder.Draws) (gamemode : Gamemode.t) (options : String.string)
    (db db' : Database) (b : bool) :
  (0 < Gamemode.player_count gamemode)%nat ->
  Recorder._get_all_untested_submissions db <> [] ->
  Recorder._run_one k init runner d gamemode options db = (b, db') ->
  exists new,
    results db' = results db ++ new
    /\ Forall (fun r => Result.points_delta r = 0) new.
Proof.
  intros Hpc Hsome. unfold Recorder._run_one.
  destruct (Recorder._run_test_match k init runner (Recorder.now d) (Recorder.choice d)
              gamemode options db) as [[b1 db1]|e] eqn:Etest.
  - destruct (test_match_cases _ _ _ _ _ _ _ _ _ _ Etest)
      as [(_ & _ & _ & Hnone) | (-> & subs & payload & _ & _ & Hsave)];
      [contradiction|].
    intros H. injection H as <- <-.
    apply save_result_shape in Hsave as (deltas & _ & _ & -> & ->).
    cbn [results]. eexists. split; [reflexivity|]. apply new_results_zero.
  - intros H. injection H as <- <-. exists []. rewrite app_nil_r. auto.
Qed.

Lemma untested_first_witness :
  exists new,
    results (snd (Recorder._run_one 32 1000 crashing_runner draws0 two_players
                    String.EmptyString db1)) = results db1 ++ new
    /\ Forall (fun r => Result.points_delta r = 0) new.
Proof.
  apply (untested_first 32 1000 crashing_runner draws0 two_players String.EmptyString
           db1 _ true).
  - simpl. lia.
  - discriminate.
  - reflexivity.
Defined.

(** X20: with no untested submission and fewer eligible submissions than
    the game needs, an iteration is a skip: it fails and leaves the store as
    it was, whatever the execution service would answer. *)
Theorem too_few_candidates_skip (k init : R)
    (runner : String.string -> String.string -> list String.string -> raises Payload)
    (d : Recorder.Draws) (gamemode : Gamemode.t) (options : String.string)
    (db : Database) :
  (0 < Gamemode.player_count gamemode)%nat ->
  Recorder._get_all_untested_submissions db = [] ->
  (length (Recorder._get_all_latest_healthy_submissions db)
   < Gamemode.player_count gamemode)%nat ->
  Recorder._run_one k init runner d gamemode options db = (false, db).
Proof.
  intros Hpc Hnone Hfew.
  unfold Recorder._run_one, Recorder._run_test_match, Recorder._run_typical_match.
  cbn zeta. rewrite Hnone.
  apply Nat.ltb_lt in Hpc, Hfew. rewrite Hpc, Hfew. reflexivity.
Qed.

Lemma too_few_candidates_skip_witness :
  Recorder._run_one 32 1000 crashing_runner draws0
    {| Gamemode.name := String.EmptyString; Gamemode.player_count := 3 |}
    String.EmptyString db0 = (false, db0).
Proof.
  apply too_few_candidates_skip; [simpl; lia | reflexivity | simpl; lia].
Defined.

(** ** Candidate selection *)

Lemma filter_length_lt {A : Type} (p p' : A -> bool) (l : list A) (x0 : A) :
  (forall x, In x l -> p' x = true -> p x = true) ->
  In x0 l -> p x0 = true -> p' x0 = false ->
  (length (filter p' l) < length (filter p l))%nat.
Proof.
  intros Himp Hin Hp Hp'.
  assert (Hle : forall l', (forall x, In x l' -> p' x = true -> p x = true) ->
                           (length (filter p' l') <= length (filter p l'))%nat).
  { induction l' as [|x t IH]; intros Hi; simpl; [lia|].
    assert (IH' := IH (fun y Hy => Hi y (or_intror Hy))).
    destruct (p' x) eqn:E'.
    - rewrite (Hi x (or_introl eq_refl) E'). simpl. lia.
    - destruct (p x); simpl; lia. }
  induction l as [|x t IH]; [contradiction|].
  simpl. destruct Hin as [->|Hin].
  - rewrite Hp, Hp'. simpl.
    pose proof (Hle t (fun y Hy => Himp y (or_intror Hy))). lia.
  - assert (IH' := IH (fun y Hy => Himp y (or_intror Hy)) Hin).
    destruct (p' x) eqn:E'.
    + rewrite (Himp x (or_introl eq_refl) E'). simpl. lia.
    + destruct (p x); simpl; lia.
Qed.

Lemma fold_max_upper (l : list nat) (a : nat) :
  (a <= fold_left Nat.max l a)%nat
  /\ (forall x, In x l -> (x <= fold_left Nat.max l a)%nat)
  /\ (fold_left Nat.max l a = a \/ In (fold_left Nat.max l a) l).
Proof.
  revert a. induction l as [|y t IH]; intros a; simpl.
  - split; [lia|]. split; [contradiction | auto].
  - destruct (IH (Nat.max a y)) as (H1 & H2 & H3). split; [lia|]. split.
    + intros x [<-|Hx]; [lia | auto].
    + destruct H3 as [H3|H3]; [|auto].
      rewrite H3. destruct (Nat.max_spec a y) as [[_ ->] | [_ ->]]; auto.
Qed.

(** A candidate of [most_recent_subq]: an active submission of [user] with a
    healthy result *)
Lemma maxdate_latest (db : Database) (user d : nat) :
  Recorder.maxdate db user = Some d ->
  (exists s, In s (submissions db) /\ Submission.user_id s = user
             /\ Submission.active s = true /\ (0 < Recorder.healthies db s)%nat
             /\ Submission.submission_date s = d)
  /\ forall s, In s (submissions db) -> Submission.user_id s = user ->
               Submission.active s = true -> (0 < Recorder.healthies db s)%nat ->
               (Submission.submission_date s <= d)%nat.
Proof.
  unfold Recorder.maxdate.
  set (cand := fun s => (Submission.user_id s =? user)%nat && Submission.active s
                        && (0 <? Recorder.healthies db s)%nat).
  assert (Hcand : forall s, cand s = true <->
                            Submission.user_id s = user /\ Submission.active s = true
                            /\ (0 < Recorder.healthies db s)%nat).
  { intros s. unfold cand. rewrite !andb_true_iff, Nat.eqb_eq, Nat.ltb_lt. tauto. }
  destruct (filter cand (submissions db)) as [|s0 rest] eqn:E; [discriminate|].
  intros H. injection H as <-.
  assert (Hall : forall s, In s (s0 :: rest) <-> In s (submissions db) /\ cand s = true)
    by (intros s; rewrite <- E; apply filter_In).
  destruct (fold_max_upper (map Submission.submission_date rest)
              (Submission.submission_date s0)) as (H1 & H2 & H3).
  split.
  - destruct H3 as [H3|H3].
    + exists s0. destruct (proj1 (Hall s0) (or_introl eq_refl)) as [Hin Hc].
      apply Hcand in Hc. intuition.
    + apply in_map_iff in H3 as (s & Hd & Hs).
      exists s. destruct (proj1 (Hall s) (or_intror Hs)) as [Hin Hc].
      apply Hcand in Hc. intuition.
  - intros s Hin Hu Ha Hh.
    assert (Hs : In s (s0 :: rest)) by (apply Hall; split; [assumption|]; apply Hcand; auto).
    destruct Hs as [<-|Hs]; [assumption|].
    apply H2. apply in_map. assumption.
Qed.

Lemma latest_In (db : Database) (s : Submission.t) (h : R) :
  In (s, h) (Recorder._get_all_latest_healthy_submissions db) ->
  In s (submissions db)
  /\ (0 < Recorder.healthies db s)%nat
  /\ h = INR (Recorder.healthies db s) / INR (Recorder.total db s)
  /\ Recorder.maxdate db (Submission.user_id s) = Some (Submission.submission_date s).
Proof.
  unfold Recorder._get_all_latest_healthy_submissions. intros H.
  apply in_map_iff in H as (s' & E & Hs). injection E as -> <-.
  apply filter_In in Hs as [Hin Hc]. apply andb_true_iff in Hc as [Hh Hd].
  apply Nat.ltb_lt in Hh.
  destruct (Recorder.maxdate db (Submission.user_id s)) as [d|]; [|discriminate].
  apply Nat.eqb_eq in Hd. subst d. auto.
Qed.

Lemma healthies_le_total (db : Database) (s : Submission.t) :
  (Recorder.healthies db s <= Recorder.total db s)%nat.
Proof. unfold Recorder.healthies, Recorder.total. apply filter_length_le. Qed.

(** X21: every submission the typical query returns is stored, has been
    played (it is not among the untested ones), and comes with its health,
    healthy results over all results, which is above 0 and at most 1. *)
Theorem latest_healthy_health (db : Database) (s : Submission.t) (h : R) :
  In (s, h) (Recorder._get_all_latest_healthy_submissions db) ->
  In s (submissions db)
  /\ ~ In s (Recorder._get_all_untested_submissions db)
  /\ h = INR (Recorder.healthies db s) / INR (Recorder.total db s)
  /\ 0 < h <= 1.
Proof.
  intros H. apply latest_In in H as (Hin & Hh & -> & _).
  pose proof (healthies_le_total db s) as Hle.
  assert (Ht : 0 < INR (Recorder.total db s)) by (apply lt_0_INR; lia).
  split; [assumption|]. split; [|split; [reflexivity|split]].
  - unfold Recorder._get_all_untested_submissions. intros Hu.
    apply filter_In in Hu as [_ Hu]. apply Nat.eqb_eq in Hu.
    unfold Recorder.total in Hle. lia.
  - apply Rdiv_lt_0_compat; [apply lt_0_INR; lia | assumption].
  - apply Rmult_le_reg_r with (INR (Recorder.total db s)); [assumption|].
    unfold Rdiv. rewrite Rmult_assoc, Rinv_l, Rmult_1_r, Rmult_1_l by lra.
    apply le_INR. assumption.
Qed.

Lemma latest_healthy_health_witness :
  In (sub 3 8 true) (submissions db0)
  /\ 0 < INR (Recorder.healthies db0 (sub 3 8 true))
         / INR (Recorder.total db0 (sub 3 8 true)) <= 1.
Proof.
  destruct (latest_healthy_health db0 (sub 3 8 true)
              (INR (Recorder.healthies db0 (sub 3 8 true))
               / INR (Recorder.total db0 (sub 3 8 true))))
    as (H1 & _ & _ & H2); [cbn; auto | auto].
Defined.

(** X22: when no participant has two submissions with the same date, the
    typical query returns at most one submission per participant, and the one
    it returns is active and is the latest of the active submissions of its
    participant that have a healthy result. *)
Theorem latest_healthy_one_per_participant (db : Database) :
  (forall s1 s2, In s1 (submissions db) -> In s2 (submissions db) ->
                 Submission.user_id s1 = Submission.user_id s2 ->
                 Submission.submission_date s1 = Submission.submission_date s2 ->
                 s1 = s2) ->
  forall s h, In (s, h) (Recorder._get_all_latest_healthy_submissions db) ->
    Submission.active s = true
    /\ (forall s', In s' (submissions db) ->
                   Submission.user_id s' = Submission.user_id s ->
                   Submission.active s' = true -> (0 < Recorder.healthies db s')%nat ->
                   (Submission.submission_date s' <= Submission.submission_date s)%nat)
    /\ (forall s' h', In (s', h') (Recorder._get_all_latest_healthy_submissions db) ->
                      Submission.user_id s' = Submission.user_id s -> s' = s).
Proof.
  intros Hdates s h H. apply latest_In in H as (Hin & Hh & _ & Hmax).
  destruct (maxdate_latest _ _ _ Hmax) as ((s0 & Hin0 & Hu0 & Ha0 & _ & Hd0) & Hlatest).
  assert (s0 = s) by (apply Hdates; assumption). subst s0.
  split; [assumption|]. split; [exact Hlatest|].
  intros s' h' H' Hu. apply latest_In in H' as (Hin' & _ & _ & Hmax').
  rewrite Hu, Hmax in Hmax'. injection Hmax' as Hd.
  apply Hdates; auto.
Qed.

Lemma latest_healthy_one_per_participant_witness :
  Submission.active (sub 2 7 true) = true
  /\ In (sub 2 7 true) (map fst (Recorder._get_all_latest_healthy_submissions db0)).
Proof.
  assert (Hin : In (sub 2 7 true, INR (Recorder.healthies db0 (sub 2 7 true))
                                  / INR (Recorder.total db0 (sub 2 7 true)))
                   (Recorder._get_all_latest_healthy_submissions db0))
    by (cbn; auto).
  assert (Hdates : forall s1 s2, In s1 (submissions db0) -> In s2 (submissions db0) ->
                     Submission.user_id s1 = Submission.user_id s2 ->
                     Submission.submission_date s1 = Submission.submission_date s2 ->
                     s1 = s2).
  { intros s1 s2 H1 H2 Hu Hd. cbn in H1, H2.
    destruct H1 as [<-|[<-|[<-|[]]]], H2 as [<-|[<-|[<-|[]]]];
      try reflexivity; cbn in Hd; discriminate. }
  destruct (latest_healthy_one_per_participant db0 Hdates _ _ Hin) as (Ha & _).
  split; [exact Ha|]. cbn. auto.
Defined.

(** ** Matches and the pool of candidates *)

(** X23: a self-test match that is recorded, of a game with at least one
    player, takes its submission out of the untested ones and puts none in:
    the untested pool shrinks strictly. *)
Theorem test_match_shrinks_untested (k init : R)
    (runner : String.string -> String.string -> list String.string -> raises Payload)
    (now choice : nat) (gamemode : Gamemode.t) (options : String.string)
    (db db' : Database) :
  (0 < Gamemode.player_count gamemode)%nat ->
  Recorder._run_test_match k init runner now choice gamemode options db = Ok (true, db') ->
  (exists s, In s (Recorder._get_all_untested_submissions db)
             /\ ~ In s (Recorder._get_all_untested_submissions db'))
  /\ incl (Recorder._get_all_untested_submissions db')
          (Recorder._get_all_untested_submissions db)
  /\ (length (Recorder._get_all_untested_submissions db')
      < length (Recorder._get_all_untested_submissions db))%nat.
Proof.
  intros Hpc H.
  destruct (test_match_cases _ _ _ _ _ _ _ _ _ _ H)
    as [(Hb & _) | (_ & subs & payload & Hsubs & _ & Hsave)]; [discriminate|].
  destruct Hsubs as [[H0 _] | (_ & s & Hs & ->)]; [lia|].
  apply save_result_shape in Hsave as (deltas & Hlen & Hd & _ & ->).
  set (new := Recorder.new_results (length (matches db))
                (map Submission.id (repeat s (Gamemode.player_count gamemode)))
                (submission_results payload) deltas).
  assert (Hres : forall s', results_of
                   {| submissions := submissions db; results := results db ++ new;
                      matches := matches db
                                 ++ [ {| Match.match_date := now;
                                         Match.recording := recording payload |} ] |} s'
                 = results_of db s'
                   ++ filter (fun r => Result.submission_id r =? Submission.id s')%nat new).
  { intros s'. unfold results_of. cbn [results]. apply filter_app. }
  assert (Himp : forall s',
             (length (results_of
                {| submissions := submissions db; results := results db ++ new;
                   matches := matches db
                              ++ [ {| Match.match_date := now;
                                      Match.recording := recording payload |} ] |} s')
              =? 0)%nat = true ->
             (length (results_of db s') =? 0)%nat = true).
  { intros s'. rewrite Hres, length_app, !Nat.eqb_eq. lia. }
  assert (Hs' : (length (results_of
                {| submissions := submissions db; results := results db ++ new;
                   matches := matches db
                              ++ [ {| Match.match_date := now;
                                      Match.recording := recording payload |} ] |} s)
              =? 0)%nat = false).
  { apply Nat.eqb_neq. rewrite Hres, length_app.
    assert (Hids : map Result.submission_id new
                   = map Submission.id (repeat s (Gamemode.player_count gamemode))).
    { apply new_results_ids; rewrite length_map; [assumption | assumption]. }
    destruct (Gamemode.player_count gamemode) as [|n]; [lia|].
    destruct new as [|r rest]; [discriminate|].
    cbn in Hids. injection Hids as Hr _.
    cbn [filter]. rewrite Hr, Nat.eqb_refl. simpl. lia. }
  pose proof Hs as Hs0.
  unfold Recorder._get_all_untested_submissions in Hs0 |- *. cbn [submissions].
  apply filter_In in Hs0 as [Hin Hun].
  split; [|split].
  - exists s. split; [apply filter_In; auto|].
    intros Hc. apply filter_In in Hc as [_ Hc]. congruence.
  - intros x Hx. apply filter_In in Hx as [Hx1 Hx2]. apply filter_In. auto.
  - apply (filter_length_lt _ _ _ s); auto.
Qed.

Lemma test_match_shrinks_untested_witness :
  (length (Recorder._get_all_untested_submissions
             (snd (Recorder._run_one 32 1000 crashing_runner draws0 two_players
                     String.EmptyString db1)))
   < length (Recorder._get_all_untested_submissions db1))%nat.
Proof.
  apply (test_match_shrinks_untested 32 1000 crashing_runner 30 0 two_players
           String.EmptyString db1); [simpl; lia | reflexivity].
Defined.

(** X24: every result that a recorded typical match adds belongs to a
    stored submission that had a healthy result before the match: a
    submission of health 0 is never drawn. *)
Theorem typical_match_entrants_healthy (k init : R)
    (runner : String.string -> String.string -> list String.string -> raises Payload)
    (now : nat) (i_submissions : list nat) (gamemode : Gamemode.t)
    (options : String.string) (db db' : Database) :
  Recorder._run_typical_match k init runner now i_submissions gamemode options db
  = Ok (true, db') ->
  exists new,
    results db' = results db ++ new
    /\ forall r, In r new ->
         exists s, In s (submissions db)
                   /\ Submission.id s = Result.submission_id r
                   /\ (0 < Recorder.healthies db s)%nat.
Proof.
  intros H.
  destruct (typical_match_cases _ _ _ _ _ _ _ _ _ _ H)
    as [(Hb & _) | (_ & _ & subs & payload & Hsubs & _ & Hsave)]; [discriminate|].
  apply save_result_shape in Hsave as (deltas & _ & _ & _ & ->).
  cbn [results]. eexists. split; [reflexivity|].
  intros r Hr. apply new_results_match in Hr as [_ Hid].
  apply in_map_iff in Hid as (s & Hid & Hs).
  apply Hsubs in Hs. apply in_map_iff in Hs as ([s' h] & E & Hs). cbn in E. subst s'.
  apply latest_In in Hs as (Hin & Hh & _).
  exists s. auto.
Qed.

Lemma typical_match_entrants_healthy_witness :
  exists db' new,
    Recorder._run_typical_match 32 1000 crashing_runner 30 [0%nat; 1%nat] two_players
      String.EmptyString db0 = Ok (true, db')
    /\ results db' = results db0 ++ new.
Proof.
  eexists.
  destruct (typical_match_entrants_healthy 32 1000 crashing_runner 30 [0%nat; 1%nat]
              two_players String.EmptyString db0 _ eq_refl) as (new & Hnew & _).
  exists new. split; [reflexivity | exact Hnew].
Defined.

(** ** Pacing in general *)

(** X25: the worker never asks for a negative sleep; with a target that is
    not negative, an elapsed time that is not negative and the jitter draw in
    [0, 1), the sleep is at most 1.025 times the target and at least the
    target less 2.5% less the elapsed time, after a success or a failure. *)
Theorem sleep_time_bounds (seconds_per_run : Z) (success : bool) (d : Recorder.Draws) :
  0 <= Recorder.sleep_time seconds_per_run success d
  /\ ((0 <= seconds_per_run)%Z -> 0 <= Recorder.diff d ->
      0 <= Recorder.random d < 1 ->
      Recorder.sleep_time seconds_per_run success d <= 1025 / 1000 * IZR seconds_per_run
      /\ 975 / 1000 * IZR seconds_per_run - Recorder.diff d
         <= Recorder.sleep_time seconds_per_run success d).
Proof.
  unfold Recorder.sleep_time. cbn zeta. split; [apply Rmax_l|].
  intros Hs Hd Hr. apply IZR_le in Hs.
  unfold Rmax. destruct (Rle_dec _ _); split; nra.
Qed.

Lemma sleep_time_bounds_witness :
  Recorder.sleep_time 10 false draws0 <= 1025 / 1000 * 10.
Proof.
  destruct (sleep_time_bounds 10 false draws0) as (_ & H).
  destruct H as [H _]; [lia | simpl; lra | simpl; lra | exact H].
Defined.

(** ** The loop *)

(** X26: over any number of turns the worker keeps the submissions, keeps
    the store consistent, sleeps once per turn and never a negative time, and
    adds at most one match per turn; for a game without players it takes no
    turn at all. *)
Theorem run_accounting (k init : R)
    (runner : String.string -> String.string -> list String.string -> raises Payload)
    (seconds_per_run : Z) (ds : list Recorder.Draws) (gamemode : Gamemode.t)
    (options : String.string) (db : Database) :
  let slept := fst (Recorder.run k init runner seconds_per_run ds gamemode options db) in
  let db' := snd (Recorder.run k init runner seconds_per_run ds gamemode options db) in
  submissions db' = submissions db
  /\ (consistent db -> consistent db')
  /\ Forall (fun t => 0 <= t) slept
  /\ (length (matches db) <= length (matches db') <= length (matches db) + length ds)%nat
  /\ ((0 < Gamemode.player_count gamemode)%nat -> length slept = length ds)
  /\ (Gamemode.player_count gamemode = 0%nat -> slept = [] /\ db' = db).
Proof.
  cbn zeta. unfold Recorder.run.
  destruct (Nat.ltb_spec (Gamemode.player_count gamemode) 1) as [Hpc|Hpc].
  - cbn [fst snd]. split; [reflexivity|]. split; [auto|]. split; [constructor|].
    split; [lia|]. split; [lia | auto].
  - assert (H : forall db0,
      let r := Recorder.run_loop k init runner seconds_per_run ds gamemode options db0 in
      submissions (snd r) = submissions db0
      /\ (consistent db0 -> consistent (snd r))
      /\ Forall (fun t => 0 <= t) (fst r)
      /\ (length (matches db0) <= length (matches (snd r))
          <= length (matches db0) + length ds)%nat
      /\ length (fst r) = length ds).
    { induction ds as [|d rest IH]; intros db0; cbn zeta.
      - cbn [Recorder.run_loop fst snd length]. split; [reflexivity|]. split; [auto|].
        split; [constructor|]. split; [lia | reflexivity].
      - cbn [Recorder.run_loop]. unfold Recorder.run_iteration.
        destruct (Recorder._run_one k init runner d gamemode options db0)
          as [success db1] eqn:E1.
        specialize (IH db1). cbn zeta in IH.
        destruct (Recorder.run_loop k init runner seconds_per_run rest gamemode options db1)
          as [later db2] eqn:E2.
        cbn [fst snd] in *. destruct IH as (Hs & Hc & Hf & Hm & Hl).
        pose proof (run_one_cases _ _ _ _ _ _ _ _ _ E1) as Hcases.
        assert (Hsub1 : submissions db1 = submissions db0
                        /\ (consistent db0 -> consistent db1)
                        /\ (length (matches db0) <= length (matches db1)
                            <= S (length (matches db0)))%nat).
        { destruct Hcases as [(_ & ->) | (_ & subs & payload & flag & Hincl & Hsave)];
            [split; [reflexivity|]; split; [auto | lia]|].
          split; [|split].
          - apply save_result_shape in Hsave as (? & _ & _ & _ & ->). reflexivity.
          - intros Hc0. eapply save_result_consistent; eassumption.
          - apply save_result_shape in Hsave as (? & _ & _ & _ & ->).
            cbn [matches]. rewrite length_app. simpl. lia. }
        destruct Hsub1 as (Hs1 & Hc1 & Hm1).
        split; [congruence|]. split; [auto|]. split; [|split; [|simpl; lia]].
        + constructor; [|assumption]. unfold Recorder.sleep_time. apply Rmax_l.
        + simpl. lia. }
    specialize (H db). cbn zeta in H. destruct H as (Hs & Hc & Hf & Hm & Hl).
    split; [assumption|]. split; [assumption|]. split; [assumption|].
    split; [assumption|]. split; [auto | lia].
Qed.

Lemma run_accounting_witness :
  consistent (snd (Recorder.run 32 1000 crashing_runner 10 [draws0; draws0] two_players
                     String.EmptyString db1)).
Proof.
  destruct (run_accounting 32 1000 crashing_runner 10 [draws0; draws0] two_players
              String.EmptyString db1) as (_ & H & _).
  apply H. exact db1_consistent.
Defined.

(** X27: while the execution service answers every request with a failure,
    the worker records nothing: after any number of turns the store is the
    one it started with. *)
Theorem service_down_changes_nothing (k init : R)
    (runner : String.string -> String.string -> list String.string -> raises Payload)
    (seconds_per_run : Z) (ds : list Recorder.Draws) (gamemode : Gamemode.t)
    (options : String.string) (db : Database) :
  (forall o g hashes, exists e, runner o g hashes = Raise e) ->
  snd (Recorder.run k init runner seconds_per_run ds gamemode options db) = db.
Proof.
  intros Hdown.
  assert (Hone : forall d db0,
             Recorder._run_one k init runner d gamemode options db0 = (false, db0)).
  { intros d db0. unfold Recorder._run_one.
    assert (Hrun : forall subs, exists e,
               Recorder._run_match runner gamemode options subs = Raise e)
      by (intros subs; apply Hdown).
    assert (Htest : forall r,
               Recorder._run_test_match k init runner (Recorder.now d) (Recorder.choice d)
                 gamemode options db0 = Ok r -> r = (false, db0)).
    { intros r. unfold Recorder._run_test_match. cbn zeta.
      destruct (_ && _); [congruence|].
      destruct (if (0 <? Gamemode.player_count gamemode)%nat then _ else _) as [subs|e];
        cbn [bind]; [|discriminate].
      destruct (Hrun subs) as (e & ->). discriminate. }
    assert (Htyp : forall r,
               Recorder._run_typical_match k init runner (Recorder.now d)
                 (Recorder.i_submissions d) gamemode options db0 = Ok r -> r = (false, db0)).
    { intros r. unfold Recorder._run_typical_match. cbn zeta.
      destruct (_ && _); [congruence|].
      destruct (if (0 <? Gamemode.player_count gamemode)%nat then _ else _) as [subs|e];
        cbn [bind]; [|discriminate].
      destruct (Hrun subs) as (e & ->). discriminate. }
    destruct (Recorder._run_test_match _ _ _ _ _ _ _ _) as [r|e] eqn:E1.
    - rewrite (Htest r eq_refl).
      destruct (Recorder._run_typical_match _ _ _ _ _ _ _ _) as [r2|e] eqn:E2;
        [rewrite (Htyp r2 eq_refl)|]; reflexivity.
    - reflexivity. }
  unfold Recorder.run. destruct (_ <? _)%nat; [reflexivity|].
  revert db. induction ds as [|d rest IH]; intros db; [reflexivity|].
  cbn [Recorder.run_loop]. unfold Recorder.run_iteration. rewrite Hone.
  specialize (IH db).
  destruct (Recorder.run_loop k init runner seconds_per_run rest gamemode options db).
  exact IH.
Qed.

Lemma service_down_changes_nothing_witness :
  snd (Recorder.run 32 1000 (fun _ _ _ => Raise RequestException) 10 [draws0; draws0]
         two_players String.EmptyString db1) = db1.
Proof.
  apply service_down_changes_nothing. intros o g hashes. exists RequestException. reflexivity.
Defined.
